(** * Memory Master: the game-state logic of [MemoryGame.tsx]

    A shallow embedding of the React component [MemoryGame] and of the
    types of [types/game.ts].  The component's [useState] cells form a
    record [State]; what lives outside React (the timeouts registered by
    [setTimeout] and the interval registered by the timer effect) is kept
    beside it in a [World].  Every handler is a function on states, every
    browser event is a constructor of [Event], and [step] handles one event
    to completion: the handler, the re-render and the effects whose
    dependencies changed.

    Numbers: card ids, counters and delays are JavaScript numbers that only
    ever hold small non-negative integers (they start at 0 and grow by 1),
    where double arithmetic is exact; they are modelled as [nat].

    Randomness: [pairedEmojis.sort(() => Math.random() - 0.5)] is modelled
    by an oracle [shuffle : list string -> list string] supplied with the
    event that deals a deck; statements that depend on the deck's content
    assume that the oracle returns a permutation of its argument. *)

From Stdlib Require Import String List Bool Arith Lia Permutation.
From Stdlib Require Decimal DecimalString DecimalNat.
Import ListNotations.
Local Open Scope string_scope.
Local Open Scope list_scope.
Local Open Scope nat_scope.

(** ** Types of [types/game.ts] *)

Record Card : Type := mkCard {
  id : nat;
  emoji : string;
  isFlipped : bool;
  isMatched : bool
}.

Record GameStats : Type := mkGameStats {
  moves : nat;
  matches : nat;
  timeElapsed : nat;
  isGameComplete : bool
}.

Inductive Difficulty : Type := easy | medium | hard.

Record DifficultyConfig : Type := mkDifficultyConfig {
  gridSize : nat;
  timeLimit : option nat;
  label : string
}.

(** ** Constants of [MemoryGame.tsx] *)

Definition CARD_EMOJIS : list string :=
  ["🎮"; "🎯"; "🎲"; "🎪"; "🎨"; "🎭"; "🎸"; "🎺"; "🎻";
   "🎹"; "🎤"; "🎧"; "🎬"; "🎯"; "🎊"; "🎉"; "🎁"; "🎀"].

Definition DIFFICULTY_CONFIG (d : Difficulty) : DifficultyConfig :=
  match d with
  | easy => mkDifficultyConfig 4 None "Easy (4x4)"
  | medium => mkDifficultyConfig 6 None "Medium (6x6)"
  | hard => mkDifficultyConfig 8 None "Hard (8x8)"
  end.

(** ** The component's state *)

Record State : Type := mkState {
  cards : list Card;
  flippedCards : list nat;
  stats : GameStats;
  difficulty : Difficulty;
  gameStarted : bool;
  isClickable : bool
}.

(** The values given to [useState] on mount. *)
Definition initialState : State :=
  mkState [] [] (mkGameStats 0 0 0 false) easy false true.

(** The state setters.  [setCards] and [setStats] take the updater
    function [prev => ...]; a plain value is the constant updater. *)
Definition setCards (f : list Card -> list Card) (s : State) : State :=
  mkState (f (cards s)) (flippedCards s) (stats s) (difficulty s)
          (gameStarted s) (isClickable s).

Definition setFlippedCards (l : list nat) (s : State) : State :=
  mkState (cards s) l (stats s) (difficulty s) (gameStarted s) (isClickable s).

Definition setStats (f : GameStats -> GameStats) (s : State) : State :=
  mkState (cards s) (flippedCards s) (f (stats s)) (difficulty s)
          (gameStarted s) (isClickable s).

Definition setDifficulty (d : Difficulty) (s : State) : State :=
  mkState (cards s) (flippedCards s) (stats s) d (gameStarted s) (isClickable s).

Definition setGameStarted (b : bool) (s : State) : State :=
  mkState (cards s) (flippedCards s) (stats s) (difficulty s) b (isClickable s).

Definition setIsClickable (b : bool) (s : State) : State :=
  mkState (cards s) (flippedCards s) (stats s) (difficulty s) (gameStarted s) b.

(** Object spreads [{ ...card, isFlipped: b }], [{ ...card, isMatched: b }]
    and the three spreads of [prev] over the statistics. *)
Definition withFlipped (b : bool) (card : Card) : Card :=
  mkCard (id card) (emoji card) b (isMatched card).

Definition withMatched (b : bool) (card : Card) : Card :=
  mkCard (id card) (emoji card) (isFlipped card) b.

Definition incMoves (prev : GameStats) : GameStats :=
  mkGameStats (moves prev + 1) (matches prev) (timeElapsed prev)
              (isGameComplete prev).

Definition incMatches (prev : GameStats) : GameStats :=
  mkGameStats (moves prev) (matches prev + 1) (timeElapsed prev)
              (isGameComplete prev).

Definition incTimeElapsed (prev : GameStats) : GameStats :=
  mkGameStats (moves prev) (matches prev) (timeElapsed prev + 1)
              (isGameComplete prev).

Definition completeGame (prev : GameStats) : GameStats :=
  mkGameStats (moves prev) (matches prev) (timeElapsed prev) true.

(** ** [initializeGame] *)

(** [Array.prototype.map((emoji, index) => ({ id: index, emoji, ... }))],
    counting the index from [index]. *)
Fixpoint mapIndexed (index : nat) (l : list string) : list Card :=
  match l with
  | [] => []
  | e :: l' => mkCard index e false false :: mapIndexed (S index) l'
  end.

(** The local [shuffledCards] of [initializeGame], for a symbol catalog
    [catalog] ([CARD_EMOJIS] in the component). *)
Definition shuffledCards (catalog : list string)
    (shuffle : list string -> list string) (d : Difficulty) : list Card :=
  let config := DIFFICULTY_CONFIG d in
  let totalCards := (gridSize config * gridSize config) / 2 in
  let selectedEmojis := firstn totalCards catalog in
  let pairedEmojis := selectedEmojis ++ selectedEmojis in
  mapIndexed 0 (shuffle pairedEmojis).

Definition initializeGame (shuffle : list string -> list string)
    (s : State) : State :=
  setIsClickable true
    (setStats (fun _ => mkGameStats 0 0 0 false)
       (setFlippedCards []
          (setCards (fun _ => shuffledCards CARD_EMOJIS shuffle (difficulty s))
             s))).

Definition startGame (shuffle : list string -> list string)
    (s : State) : State :=
  initializeGame shuffle (setGameStarted true s).

Definition resetGame (shuffle : list string -> list string)
    (s : State) : State :=
  initializeGame shuffle s.

(** ** [handleCardClick] and the deferred commits *)

(** The two closures handed to [setTimeout]: which branch registered it,
    the [newFlippedCards] it captured, and its delay in milliseconds. *)
Inductive Commit : Type := MatchFound | NoMatch.

Record Timeout : Type := mkTimeout {
  kind : Commit;
  captured : list nat;
  delay : nat
}.

(** [Array.prototype.includes] on numbers. *)
Definition includes (l : list nat) (x : nat) : bool :=
  existsb (Nat.eqb x) l.

(** What a call of [handleCardClick] leaves behind: it returns on its
    first line, having updated nothing; or it returns at its end, with the
    state updates it queued and the timeout it registered, if any; or
    reading [.emoji] of an [undefined] card throws, after the updates
    queued before that line. *)
Inductive Outcome : Type :=
| ReturnedEarly
| Returned (s : State) (scheduled : option Timeout)
| Threw (s : State).

Definition handleCardClick (s : State) (cardId : nat) : Outcome :=
  if length (flippedCards s) =? 2 then ReturnedEarly
  else
    let s1 :=
      setCards (map (fun card =>
                  if id card =? cardId then withFlipped true card else card)) s in
    let newFlippedCards := flippedCards s ++ [cardId] in
    let s2 := setFlippedCards newFlippedCards s1 in
    if length newFlippedCards =? 2 then
      let s3 := setStats incMoves (setIsClickable false s2) in
      match map (fun i => find (fun card => id card =? i) (cards s))
                newFlippedCards with
      | [Some firstCard; Some secondCard] =>
          if String.eqb (emoji firstCard) (emoji secondCard)
          then Returned s3 (Some (mkTimeout MatchFound newFlippedCards 600))
          else Returned s3 (Some (mkTimeout NoMatch newFlippedCards 1200))
      | _ => Threw s3
      end
    else Returned s2 None.

(** The body of a timeout's callback. *)
Definition runTimeout (t : Timeout) (s : State) : State :=
  match kind t with
  | MatchFound =>
      setIsClickable true
        (setFlippedCards []
           (setStats incMatches
              (setCards (map (fun card =>
                          if includes (captured t) (id card)
                          then withMatched true card else card)) s)))
  | NoMatch =>
      setIsClickable true
        (setFlippedCards []
           (setCards (map (fun card =>
                       if includes (captured t) (id card)
                       then withFlipped false card else card)) s))
  end.

(** ** The effects *)

(** "Check for game completion", dependencies [[cards]]. *)
Definition completionEffect (s : State) : State :=
  if (0 <? length (cards s)) && forallb isMatched (cards s)
  then setStats completeGame s
  else s.

(** Whether the timer effect, dependencies
    [[gameStarted, stats.isGameComplete]], registers an interval. *)
Definition timerWanted (s : State) : bool :=
  negb (negb (gameStarted s) || isGameComplete (stats s)).

Definition timerDeps (s : State) : bool * bool :=
  (gameStarted s, isGameComplete (stats s)).

(** The timer effect after a render: when a dependency changed, the
    cleanup clears the old interval and the body registers a new one if
    the game runs; otherwise the effect is skipped. *)
Definition timerEffect (prev next : State) (interval : bool) : bool :=
  let '(started, complete) := timerDeps prev in
  let '(started', complete') := timerDeps next in
  if Bool.eqb started started' && Bool.eqb complete complete'
  then interval
  else timerWanted next.

(** ** The component in its environment *)

(** The React state, the pending timeouts in registration order, and
    whether the one-second interval is registered. *)
Record World : Type := mkWorld {
  ui : State;
  timeouts : list Timeout;
  interval : bool
}.

(** After mount: both effects have run on [initialState] and did nothing. *)
Definition initialWorld : World := mkWorld initialState [] false.

(** The re-render that follows a handler which left the state [s'] and
    the pending timeouts [ts]: the timer effect, then, when [setCards] was
    called, the completion effect and the render it causes. *)
Definition rerender (w : World) (s' : State) (cardsSet : bool)
    (ts : list Timeout) : World :=
  let iv := timerEffect (ui w) s' (interval w) in
  if cardsSet
  then let s'' := completionEffect s' in
       mkWorld s'' ts (timerEffect s' s'' iv)
  else mkWorld s' ts iv.

(** [GameCard]'s [handleClick], with [onClick = () => handleCardClick(card.id)].
    [None]: the guard failed and [onClick] was not called. *)
Definition GameCard_handleClick (s : State) (card : Card) : option Outcome :=
  if isClickable s && negb (isFlipped card) && negb (isMatched card)
  then Some (handleCardClick s (id card))
  else None.

Definition removeAt {A : Type} (k : nat) (l : list A) : list A :=
  firstn k l ++ skipn (S k) l.

(** What can happen to the mounted component.  The buttons of the start
    screen exist only while [gameStarted] is false, the grid and the two
    buttons under it only while it is true. *)
Inductive Event : Type :=
| ClickStartGame (shuffle : list string -> list string)
| SelectDifficulty (d : Difficulty)
| ClickCard (index : nat)
| ClickResetGame (shuffle : list string -> list string)
| ClickChangeDifficulty
| IntervalFires
| TimeoutFires (k : nat).

Definition step (w : World) (e : Event) : World :=
  let s := ui w in
  match e with
  | ClickStartGame shuffle =>
      if gameStarted s then w
      else rerender w (startGame shuffle s) true (timeouts w)
  | SelectDifficulty d =>
      if gameStarted s then w
      else rerender w (setDifficulty d s) false (timeouts w)
  | ClickCard index =>
      if gameStarted s then
        match nth_error (cards s) index with
        | Some card =>
            match GameCard_handleClick s card with
            | Some (Returned s' (Some t)) => rerender w s' true (timeouts w ++ [t])
            | Some (Returned s' None) => rerender w s' true (timeouts w)
            | Some (Threw s') => rerender w s' true (timeouts w)
            | Some ReturnedEarly | None => w
            end
        | None => w
        end
      else w
  | ClickResetGame shuffle =>
      if gameStarted s
      then rerender w (resetGame shuffle s) true (timeouts w)
      else w
  | ClickChangeDifficulty =>
      if gameStarted s
      then rerender w (setGameStarted false s) false (timeouts w)
      else w
  | IntervalFires =>
      if interval w
      then rerender w (setStats incTimeElapsed s) false (timeouts w)
      else w
  | TimeoutFires k =>
      match nth_error (timeouts w) k with
      | Some t => rerender w (runTimeout t s) true (removeAt k (timeouts w))
      | None => w
      end
  end.

Definition run (w : World) (es : list Event) : World := fold_left step es w.

Inductive reachable : World -> Prop :=
| reachable_initial : reachable initialWorld
| reachable_step (w : World) (e : Event) :
    reachable w -> reachable (step w e).

(** The events that call [initializeGame]. *)
Definition deals (e : Event) : bool :=
  match e with
  | ClickStartGame _ | ClickResetGame _ => true
  | _ => false
  end.

(** A shuffle outcome that exchanges the first two entries, for concrete
    runs in which a second deal differs from the first. *)
Definition swapFirstTwo (l : list string) : list string :=
  match l with
  | a :: b :: rest => b :: a :: rest
  | _ => l
  end.

(** The assumption on the random sort: it permutes its argument. *)
Definition permutes (shuffle : list string -> list string) : Prop :=
  forall l, Permutation (shuffle l) l.

(** A complete game on easy with the unshuffled deck, in which cards [i]
    and [i + 8] carry the same symbol: each pair is selected and its match
    commit fires before the next selection. *)
Definition easyWalkthrough : list Event :=
  ClickStartGame (fun l => l)
  :: flat_map (fun i => [ClickCard i; ClickCard (i + 8); TimeoutFires 0])
       (seq 0 8).

(** ** [formatTime] *)

(** [Number.prototype.toString()] and the interpolation [${mins}] on a
    non-negative integer (below 1e21, where JavaScript still prints every
    digit): the decimal digits, ["0"] for zero. *)
Definition toString (n : nat) : string :=
  DecimalString.NilEmpty.string_of_uint (Nat.to_uint n).

Fixpoint repeatString (n : nat) (p : string) : string :=
  match n with
  | 0 => EmptyString
  | S n' => String.append p (repeatString n' p)
  end.

(** [String.prototype.padStart(targetLength, padString)]: the string
    itself when it is long enough or the filler is empty, otherwise the
    filler repeated and cut to the missing length, then the string. *)
Definition padStart (targetLength : nat) (padString : string) (str : string)
    : string :=
  let len := String.length str in
  if targetLength <=? len then str
  else if String.eqb padString EmptyString then str
  else
    let fillLen := targetLength - len in
    String.append (substring 0 fillLen (repeatString fillLen padString)) str.

Definition formatTime (seconds : nat) : string :=
  let mins := seconds / 60 in
  let secs := seconds mod 60 in
  String.append (toString mins)
    (String.append ":" (padStart 2 "0" (toString secs))).

(** ** Further invariants of the reachable worlds *)

(** At most two ids are selected, no id twice, and [isClickable] is false
    exactly while two are. *)
Definition selectionWithinTwo (s : State) : Prop :=
  NoDup (flippedCards s) /\
  length (flippedCards s) <= 2 /\
  isClickable s = negb (length (flippedCards s) =? 2).

(** A match commit waits 600 ms, a mismatch commit 1200 ms. *)
Definition commitsTimed (ts : list Timeout) : Prop :=
  forall t, In t ts ->
    delay t = match kind t with MatchFound => 600 | NoMatch => 1200 end.

(** While two cards are selected, the commit that captured them is
    pending. *)
Definition selectionAwaited (w : World) : Prop :=
  length (flippedCards (ui w)) = 2 ->
  exists t, In t (timeouts w) /\ captured t = flippedCards (ui w).

(** ** Invariants of the reachable worlds *)

(** [initializeGame] numbers the cards by position and no update changes
    an id. *)
Definition idsArePositions (s : State) : Prop :=
  map id (cards s) = seq 0 (length (cards s)).

(** Every selected id is the position of a card that lies face up. *)
Definition selectionFaceUp (s : State) : Prop :=
  forall a, In a (flippedCards s) ->
    exists card, nth_error (cards s) a = Some card /\ isFlipped card = true.

(** The completion flag says that a deck is dealt and wholly matched. *)
Definition completionAgrees (s : State) : Prop :=
  isGameComplete (stats s)
  = (0 <? length (cards s)) && forallb isMatched (cards s).

(** Every pending commit captured two different ids. *)
Definition capturedPairs (ts : list Timeout) : Prop :=
  forall t, In t ts -> exists a b, captured t = [a; b] /\ a <> b.

Record Inv (w : World) : Prop := mkInv {
  inv_ids : idsArePositions (ui w);
  inv_selection : selectionFaceUp (ui w);
  inv_completion : completionAgrees (ui w);
  inv_interval : interval w = timerWanted (ui w);
  inv_captured : capturedPairs (timeouts w)
}.

(** * Properties *)

(** ** The deck *)

Section Deck.

Lemma permutes_id : permutes (fun l => l).
Proof. intro l. apply Permutation_refl. Qed.

Lemma permutes_swapFirstTwo : permutes swapFirstTwo.
Proof.
  intros [|a [|b rest]]; simpl; try apply Permutation_refl.
  apply perm_swap.
Qed.

Lemma mapIndexed_length (l : list string) :
  forall index, length (mapIndexed index l) = length l.
Proof. induction l as [|e l IH]; intro index; simpl; [|rewrite IH]; reflexivity. Qed.

Lemma mapIndexed_emoji (l : list string) :
  forall index, map emoji (mapIndexed index l) = l.
Proof. induction l as [|e l IH]; intro index; simpl; [|rewrite IH]; reflexivity. Qed.

Lemma mapIndexed_id (l : list string) :
  forall index, map id (mapIndexed index l) = seq index (length l).
Proof. induction l as [|e l IH]; intro index; simpl; [|rewrite IH]; reflexivity. Qed.

Lemma mapIndexed_fresh (l : list string) :
  forall index card, In card (mapIndexed index l) ->
    isFlipped card = false /\ isMatched card = false.
Proof.
  induction l as [|e l IH]; intros index card Hin; simpl in Hin.
  - contradiction.
  - destruct Hin as [<- | Hin]; [split; reflexivity | eauto].
Qed.

Variable shuffle : list string -> list string.
Hypothesis shuffle_permutes : permutes shuffle.

Lemma shuffledCards_length (catalog : list string) (d : Difficulty) :
  length (shuffledCards catalog shuffle d)
  = 2 * Nat.min (gridSize (DIFFICULTY_CONFIG d) * gridSize (DIFFICULTY_CONFIG d) / 2)
                (length catalog).
Proof.
  unfold shuffledCards. cbv zeta.
  rewrite mapIndexed_length, (Permutation_length (shuffle_permutes _)).
  rewrite length_app, length_firstn. lia.
Qed.

Lemma shuffledCards_count (catalog : list string) (d : Difficulty) (e : string) :
  count_occ string_dec (map emoji (shuffledCards catalog shuffle d)) e
  = 2 * count_occ string_dec
          (firstn (gridSize (DIFFICULTY_CONFIG d) * gridSize (DIFFICULTY_CONFIG d) / 2)
                  catalog) e.
Proof.
  unfold shuffledCards. cbv zeta. rewrite mapIndexed_emoji.
  rewrite (proj1 (Permutation_count_occ string_dec _ _) (shuffle_permutes _)).
  rewrite count_occ_app. lia.
Qed.

(** On easy the deal is as intended: 16 cards, every symbol twice. *)
Lemma easy_deck_paired :
  length (shuffledCards CARD_EMOJIS shuffle easy) = 4 * 4 /\
  forall e, In e (map emoji (shuffledCards CARD_EMOJIS shuffle easy)) ->
    count_occ string_dec (map emoji (shuffledCards CARD_EMOJIS shuffle easy)) e = 2.
Proof.
  split; [rewrite shuffledCards_length; reflexivity|].
  intros e Hin. rewrite shuffledCards_count.
  apply (count_occ_In string_dec) in Hin. rewrite shuffledCards_count in Hin.
  change (firstn (gridSize (DIFFICULTY_CONFIG easy) * gridSize (DIFFICULTY_CONFIG easy) / 2)
                 CARD_EMOJIS)
    with (firstn 8 CARD_EMOJIS) in *.
  assert (Hnd : NoDup (firstn 8 CARD_EMOJIS)).
  { apply (NoDup_count_occ' string_dec). intros x Hx.
    simpl in Hx.
    repeat (destruct Hx as [<- | Hx]; [vm_compute; reflexivity|]).
    contradiction. }
  assert (Hle := proj1 (NoDup_count_occ string_dec _) Hnd e).
  lia.
Qed.

End Deck.

(** C1 (the code departs from it): for every difficulty the dealt deck has
    gridSize squared cards and every symbol on exactly two of them.  The
    code does so on easy ([easy_deck_paired]) but not beyond: whatever the
    shuffle, the hard deck has 36 cards where the 8x8 grid has 64 places,
    and on medium and hard the symbol listed twice in [CARD_EMOJIS] is on
    four cards. *)
Theorem C1_deck_defect (shuffle : list string -> list string) (s : State) :
  permutes shuffle ->
  cards (initializeGame shuffle s)
    = shuffledCards CARD_EMOJIS shuffle (difficulty s) /\
  length (shuffledCards CARD_EMOJIS shuffle hard) = 36 /\
  gridSize (DIFFICULTY_CONFIG hard) * gridSize (DIFFICULTY_CONFIG hard) = 64 /\
  length (shuffledCards CARD_EMOJIS shuffle medium)
    = gridSize (DIFFICULTY_CONFIG medium) * gridSize (DIFFICULTY_CONFIG medium) /\
  count_occ string_dec (map emoji (shuffledCards CARD_EMOJIS shuffle medium)) "🎯" = 4 /\
  count_occ string_dec (map emoji (shuffledCards CARD_EMOJIS shuffle hard)) "🎯" = 4.
Proof.
  intro Hperm. split; [reflexivity|].
  rewrite !shuffledCards_length, !shuffledCards_count by assumption.
  repeat split; vm_compute; reflexivity.
Qed.

Lemma C1_deck_defect_witness :
  permutes (fun l => l) /\
  length (shuffledCards CARD_EMOJIS (fun l => l) hard) = 36 /\
  count_occ string_dec
    (map emoji (shuffledCards CARD_EMOJIS (fun l => l) medium)) "🎯" = 4.
Proof.
  split; [exact permutes_id|].
  pose proof (C1_deck_defect (fun l => l) initialState permutes_id) as H.
  split; [exact (proj1 (proj2 H)) | exact (proj1 (proj2 (proj2 (proj2 (proj2 H)))))].
Defined.

(** ** Effects and re-rendering *)

Section Effects.

Lemma timerEffect_wanted (prev next : State) (iv : bool) :
  iv = timerWanted prev -> timerEffect prev next iv = timerWanted next.
Proof.
  unfold timerEffect, timerDeps, timerWanted. intros ->.
  destruct (gameStarted prev), (isGameComplete (stats prev)),
    (gameStarted next), (isGameComplete (stats next)); reflexivity.
Qed.

Lemma completionEffect_cases (s : State) :
  completionEffect s = s \/
  ((0 <? length (cards s)) && forallb isMatched (cards s) = true /\
   completionEffect s = setStats completeGame s).
Proof.
  unfold completionEffect.
  destruct ((0 <? length (cards s)) && forallb isMatched (cards s));
    [right; split | left]; reflexivity.
Qed.

Lemma completionEffect_frame (s : State) :
  cards (completionEffect s) = cards s /\
  flippedCards (completionEffect s) = flippedCards s /\
  difficulty (completionEffect s) = difficulty s /\
  gameStarted (completionEffect s) = gameStarted s /\
  isClickable (completionEffect s) = isClickable s /\
  moves (stats (completionEffect s)) = moves (stats s) /\
  matches (stats (completionEffect s)) = matches (stats s) /\
  timeElapsed (stats (completionEffect s)) = timeElapsed (stats s).
Proof.
  destruct (completionEffect_cases s) as [-> | [_ ->]]; repeat split.
Qed.

Lemma completionEffect_monotone (s : State) :
  isGameComplete (stats s) = true ->
  isGameComplete (stats (completionEffect s)) = true.
Proof.
  destruct (completionEffect_cases s) as [-> | [_ ->]]; [trivial | reflexivity].
Qed.

Lemma completionEffect_agrees (s : State) :
  (isGameComplete (stats s) = true ->
   (0 <? length (cards s)) && forallb isMatched (cards s) = true) ->
  completionAgrees (completionEffect s).
Proof.
  intro Hsound. unfold completionAgrees.
  destruct (completionEffect_cases s) as [Heq | [Hall Heq]]; rewrite Heq.
  - unfold completionEffect in Heq.
    destruct ((0 <? length (cards s)) && forallb isMatched (cards s)) eqn:Hall.
    + rewrite <- Heq. reflexivity.
    + destruct (isGameComplete (stats s)); [|reflexivity].
      symmetry. apply Hsound. reflexivity.
  - simpl. symmetry. exact Hall.
Qed.

Lemma rerender_ui (w : World) (s' : State) (cardsSet : bool) (ts : list Timeout) :
  ui (rerender w s' cardsSet ts) = if cardsSet then completionEffect s' else s'.
Proof. unfold rerender. destruct cardsSet; reflexivity. Qed.

Lemma rerender_timeouts (w : World) (s' : State) (cardsSet : bool) (ts : list Timeout) :
  timeouts (rerender w s' cardsSet ts) = ts.
Proof. unfold rerender. destruct cardsSet; reflexivity. Qed.

Lemma rerender_interval (w : World) (s' : State) (cardsSet : bool) (ts : list Timeout) :
  interval w = timerWanted (ui w) ->
  interval (rerender w s' cardsSet ts)
  = timerWanted (ui (rerender w s' cardsSet ts)).
Proof.
  intro Hiv. unfold rerender. destruct cardsSet; cbn [interval ui].
  - apply timerEffect_wanted, timerEffect_wanted, Hiv.
  - apply timerEffect_wanted, Hiv.
Qed.

Lemma Inv_rerender (w : World) (s' : State) (cardsSet : bool) (ts : list Timeout) :
  Inv w ->
  idsArePositions s' ->
  selectionFaceUp s' ->
  (if cardsSet
   then isGameComplete (stats s') = true ->
        (0 <? length (cards s')) && forallb isMatched (cards s') = true
   else completionAgrees s') ->
  capturedPairs ts ->
  Inv (rerender w s' cardsSet ts).
Proof.
  intros HI Hids Hsel Hcomp Hts. constructor.
  - rewrite rerender_ui. destruct cardsSet; [|exact Hids].
    unfold idsArePositions.
    rewrite (proj1 (completionEffect_frame s')). exact Hids.
  - rewrite rerender_ui. destruct cardsSet; [|exact Hsel].
    unfold selectionFaceUp.
    destruct (completionEffect_frame s') as (-> & -> & _). exact Hsel.
  - rewrite rerender_ui. destruct cardsSet; [|exact Hcomp].
    apply completionEffect_agrees, Hcomp.
  - apply rerender_interval, HI.
  - rewrite rerender_timeouts. exact Hts.
Qed.

End Effects.

(** ** Cards addressed by id *)

Section CardsById.

Lemma map_keeps_ids (f : Card -> Card) (l : list Card) :
  (forall card, id (f card) = id card) -> map id (map f l) = map id l.
Proof.
  intro Hf. rewrite map_map. apply map_ext. exact Hf.
Qed.

Lemma setCards_map_ids (f : Card -> Card) (s : State) :
  (forall card, id (f card) = id card) ->
  idsArePositions s -> idsArePositions (setCards (map f) s).
Proof.
  unfold idsArePositions. intros Hf Hids. cbn [cards setCards].
  rewrite map_keeps_ids, length_map by exact Hf. exact Hids.
Qed.

Lemma forallb_map_monotone (f : Card -> Card) (l : list Card) :
  (forall card, isMatched card = true -> isMatched (f card) = true) ->
  forallb isMatched l = true -> forallb isMatched (map f l) = true.
Proof.
  intros Hf Hall. rewrite forallb_forall in *. intros card' Hin.
  apply in_map_iff in Hin. destruct Hin as (card & <- & Hin). auto.
Qed.

Lemma ids_nth (s : State) (i : nat) (card : Card) :
  idsArePositions s -> nth_error (cards s) i = Some card -> id card = i.
Proof.
  unfold idsArePositions. intros Hids Hnth.
  pose proof (map_nth_error id _ _ Hnth) as Hid.
  rewrite Hids, nth_error_seq in Hid.
  destruct (i <? length (cards s)); [injection Hid; auto | discriminate].
Qed.

Lemma find_from (l : list Card) :
  forall k a card,
    map id l = seq k (length l) ->
    nth_error l a = Some card ->
    find (fun c => id c =? k + a) l = Some card.
Proof.
  induction l as [|x l IH]; intros k a card Hids Hnth.
  - destruct a; discriminate.
  - simpl in Hids. injection Hids as Hx Hrest.
    destruct a as [|a]; simpl in Hnth |- *.
    + injection Hnth as ->. rewrite Hx, Nat.add_0_r, Nat.eqb_refl. reflexivity.
    + replace (id x =? k + S a) with false
        by (symmetry; apply Nat.eqb_neq; lia).
      replace (k + S a) with (S k + a) by lia. apply IH; assumption.
Qed.

Lemma find_by_id (s : State) (a : nat) (card : Card) :
  idsArePositions s ->
  nth_error (cards s) a = Some card ->
  find (fun c => id c =? a) (cards s) = Some card.
Proof.
  intros Hids Hnth. exact (find_from (cards s) 0 a card Hids Hnth).
Qed.

Lemma nth_error_map_at (f : Card -> Card) (l : list Card) (i : nat) (card : Card) :
  nth_error l i = Some card -> nth_error (map f l) i = Some (f card).
Proof. intro H. rewrite nth_error_map, H. reflexivity. Qed.

Lemma In_removeAt (A : Type) (k : nat) (l : list A) (x : A) :
  In x (removeAt k l) -> In x l.
Proof.
  unfold removeAt. intro Hin. apply in_app_or in Hin.
  destruct Hin as [Hin | Hin].
  - rewrite <- (firstn_skipn k l). apply in_or_app. left. exact Hin.
  - rewrite <- (firstn_skipn (S k) l). apply in_or_app. right. exact Hin.
Qed.

End CardsById.

(** ** [handleCardClick], case by case *)

Section Click.

Variable s : State.
Variable cardId : nat.

Lemma handleCardClick_early :
  length (flippedCards s) = 2 -> handleCardClick s cardId = ReturnedEarly.
Proof. intro H. unfold handleCardClick. rewrite H. reflexivity. Qed.

Lemma handleCardClick_first :
  flippedCards s = [] ->
  handleCardClick s cardId
  = Returned
      (setFlippedCards [cardId]
         (setCards (map (fun card =>
                      if id card =? cardId then withFlipped true card else card))
            s))
      None.
Proof. intro H. unfold handleCardClick. rewrite H. reflexivity. Qed.

Lemma handleCardClick_second (a : nat) (firstCard secondCard : Card) :
  flippedCards s = [a] ->
  find (fun card => id card =? a) (cards s) = Some firstCard ->
  find (fun card => id card =? cardId) (cards s) = Some secondCard ->
  handleCardClick s cardId
  = Returned
      (setStats incMoves
         (setIsClickable false
            (setFlippedCards [a; cardId]
               (setCards (map (fun card =>
                            if id card =? cardId then withFlipped true card
                            else card))
                  s))))
      (Some (if String.eqb (emoji firstCard) (emoji secondCard)
             then mkTimeout MatchFound [a; cardId] 600
             else mkTimeout NoMatch [a; cardId] 1200)).
Proof.
  intros Hsel Hfirst Hsecond. unfold handleCardClick. rewrite Hsel.
  cbn [length Nat.eqb app map]. rewrite Hfirst, Hsecond.
  destruct (String.eqb (emoji firstCard) (emoji secondCard)); reflexivity.
Qed.

End Click.

Section ClickShape.

(** Whatever branch is taken past the first line, the updates queued by
    [handleCardClick] have this shape. *)
Lemma handleCardClick_shape (s : State) (cardId : nat) :
  length (flippedCards s) <> 2 ->
  exists s' o,
    (handleCardClick s cardId = Returned s' o \/
     (handleCardClick s cardId = Threw s' /\ o = None)) /\
    cards s' = map (fun card =>
                 if id card =? cardId then withFlipped true card else card)
                 (cards s) /\
    flippedCards s' = flippedCards s ++ [cardId] /\
    difficulty s' = difficulty s /\
    gameStarted s' = gameStarted s /\
    isGameComplete (stats s') = isGameComplete (stats s) /\
    timeElapsed (stats s') = timeElapsed (stats s) /\
    matches (stats s') = matches (stats s) /\
    moves (stats s')
    = (if length (flippedCards s) =? 1 then moves (stats s) + 1 else moves (stats s)) /\
    (forall t, o = Some t ->
       length (flippedCards s) = 1 /\ captured t = flippedCards s ++ [cardId]).
Proof.
  intro Hlen. unfold handleCardClick.
  destruct (length (flippedCards s) =? 2) eqn:E2;
    [apply Nat.eqb_eq in E2; contradiction|].
  rewrite length_app. cbn [length].
  destruct (length (flippedCards s) + 1 =? 2) eqn:E1.
  - assert (Hone : length (flippedCards s) = 1) by (apply Nat.eqb_eq in E1; lia).
    rewrite Hone. cbn [Nat.eqb].
    destruct (map _ (flippedCards s ++ [cardId])) as [|[c1|] [|[c2|] [|x r]]];
      try (eexists; exists None; split; [right; split; reflexivity|];
           do 8 (split; [reflexivity|]); discriminate).
    destruct (String.eqb (emoji c1) (emoji c2));
      (eexists; eexists; split; [left; reflexivity|];
       do 8 (split; [reflexivity|]);
       intros t Ht; injection Ht as <-; split; reflexivity).
  - assert (Hone : (length (flippedCards s) =? 1) = false)
      by (apply Nat.eqb_neq; apply Nat.eqb_neq in E1; lia).
    rewrite Hone.
    eexists; exists None; split; [left; reflexivity|].
    do 8 (split; [reflexivity|]). discriminate.
Qed.

(** On a state whose ids are positions and whose selection is in the
    deck, the two [find] calls succeed and nothing is thrown. *)
Lemma handleCardClick_returns (s : State) (index : nat) (card : Card) :
  idsArePositions s ->
  selectionFaceUp s ->
  nth_error (cards s) index = Some card ->
  forall s', handleCardClick s index <> Threw s'.
Proof.
  intros Hids Hsel Hnth s'. unfold handleCardClick.
  destruct (length (flippedCards s) =? 2); [discriminate|].
  destruct (length (flippedCards s ++ [index]) =? 2) eqn:E1; [|discriminate].
  rewrite length_app in E1. cbn [length] in E1. apply Nat.eqb_eq in E1.
  destruct (flippedCards s) as [|a [|b r]] eqn:Esel; simpl in E1; try lia.
  destruct (Hsel a) as (firstCard & Hfirst & _); [rewrite Esel; left; reflexivity|].
  cbn [app map].
  rewrite (find_by_id s a firstCard Hids Hfirst),
          (find_by_id s index card Hids Hnth).
  destruct (String.eqb (emoji firstCard) (emoji card)); discriminate.
Qed.

End ClickShape.

(** ** The invariant holds in every reachable world *)

Section Invariant.

Lemma Inv_initial : Inv initialWorld.
Proof.
  constructor; try reflexivity.
  - intros a [].
  - intros t [].
Qed.

Lemma initializeGame_ok (shuffle : list string -> list string) (s : State) :
  idsArePositions (initializeGame shuffle s) /\
  selectionFaceUp (initializeGame shuffle s) /\
  isGameComplete (stats (initializeGame shuffle s)) = false.
Proof.
  split; [|split; [intros a []|reflexivity]].
  unfold idsArePositions, initializeGame, shuffledCards. cbn [cards setCards
    setFlippedCards setStats setIsClickable].
  rewrite mapIndexed_id, mapIndexed_length. reflexivity.
Qed.

Lemma runTimeout_ok (t : Timeout) (s : State) :
  idsArePositions s ->
  idsArePositions (runTimeout t s) /\
  selectionFaceUp (runTimeout t s) /\
  isGameComplete (stats (runTimeout t s)) = isGameComplete (stats s) /\
  length (cards (runTimeout t s)) = length (cards s) /\
  (forallb isMatched (cards s) = true ->
   forallb isMatched (cards (runTimeout t s)) = true).
Proof.
  intro Hids. unfold runTimeout.
  destruct (kind t);
    (split; [apply (setCards_map_ids _ s);
             [intro card; destruct (includes (captured t) (id card)); reflexivity
             | exact Hids]|]);
    (split; [intros a []|]); (split; [reflexivity|]);
    (split; [cbn [cards setCards setFlippedCards setStats setIsClickable];
             apply length_map|]);
    cbn [cards setCards setFlippedCards setStats setIsClickable];
    apply forallb_map_monotone; intros card Hm;
    destruct (includes (captured t) (id card)); auto.
Qed.

Lemma faceUp_selection (s s' : State) (index : nat) (card : Card) :
  idsArePositions s ->
  selectionFaceUp s ->
  nth_error (cards s) index = Some card ->
  cards s' = map (fun c => if id c =? index then withFlipped true c else c)
               (cards s) ->
  flippedCards s' = flippedCards s ++ [index] ->
  selectionFaceUp s'.
Proof.
  intros Hids Hsel Hnth Hcards Hflipped a Hin.
  rewrite Hflipped in Hin. rewrite Hcards.
  apply in_app_or in Hin. destruct Hin as [Hin | [<- | []]].
  - destruct (Hsel a Hin) as (c & Hc & Hup).
    eexists. split; [apply nth_error_map_at, Hc|].
    destruct (id c =? index); [reflexivity | exact Hup].
  - eexists. split; [apply nth_error_map_at, Hnth|].
    rewrite (ids_nth s index card Hids Hnth), Nat.eqb_refl. reflexivity.
Qed.

Lemma faceUp_matched (l : list Card) (index : nat) :
  forallb isMatched
    (map (fun c => if id c =? index then withFlipped true c else c) l)
  = forallb isMatched l.
Proof.
  induction l as [|c l IH]; [reflexivity|].
  simpl. rewrite IH. destruct (id c =? index); reflexivity.
Qed.

Theorem Inv_step (w : World) (e : Event) : Inv w -> Inv (step w e).
Proof.
  intro HI. pose proof HI as [Hids Hsel Hcomp Hiv Hts].
  destruct e as [shuffle | d | index | shuffle | | | k]; unfold step; cbv zeta.
  - destruct (gameStarted (ui w)); [exact HI|].
    destruct (initializeGame_ok shuffle (setGameStarted true (ui w)))
      as (H1 & H2 & H3).
    apply Inv_rerender; auto. unfold startGame. rewrite H3. discriminate.
  - destruct (gameStarted (ui w)); [exact HI|].
    apply Inv_rerender; auto.
  - destruct (gameStarted (ui w)); [|exact HI].
    destruct (nth_error (cards (ui w)) index) as [card|] eqn:Hnth; [|exact HI].
    unfold GameCard_handleClick.
    destruct (isClickable (ui w) && negb (isFlipped card) && negb (isMatched card))
      eqn:Hguard; [|exact HI].
    rewrite (ids_nth _ _ _ Hids Hnth).
    destruct (Nat.eq_dec (length (flippedCards (ui w))) 2) as [Htwo | Htwo].
    { rewrite handleCardClick_early by exact Htwo. exact HI. }
    destruct (handleCardClick_shape (ui w) index Htwo)
      as (s' & o & Hout & Hcards & Hflipped & _ & _ & Hflag & _ & _ & _ & Hcap).
    assert (Hids' : idsArePositions s').
    { unfold idsArePositions. rewrite Hcards, length_map, map_keeps_ids.
      - exact Hids.
      - intro c. destruct (id c =? index); reflexivity. }
    assert (Hsel' : selectionFaceUp s')
      by exact (faceUp_selection (ui w) s' index card Hids Hsel Hnth Hcards Hflipped).
    assert (Hcomp' : isGameComplete (stats s') = true ->
                     (0 <? length (cards s')) && forallb isMatched (cards s') = true).
    { rewrite Hflag, Hcards, length_map, faceUp_matched. intro Hc.
      rewrite <- Hcomp. exact Hc. }
    destruct Hout as [Hout | [Hout _]]; rewrite Hout.
    + destruct o as [t|]; apply Inv_rerender; auto.
      intros t' Hin. apply in_app_or in Hin. destruct Hin as [Hin | [<- | []]];
        [exact (Hts t' Hin)|].
      destruct (Hcap t eq_refl) as [Hone Hcaptured].
      destruct (flippedCards (ui w)) as [|a [|b r]] eqn:Esel; try discriminate.
      exists a, index. split; [exact Hcaptured|].
      intros ->. destruct (Hsel index) as (c & Hc & Hup);
        [rewrite Esel; left; reflexivity|].
      rewrite Hnth in Hc. injection Hc as <-.
      rewrite Hup in Hguard. rewrite andb_false_r in Hguard. discriminate.
    + apply Inv_rerender; auto.
  - destruct (gameStarted (ui w)); [|exact HI].
    destruct (initializeGame_ok shuffle (ui w)) as (H1 & H2 & H3).
    apply Inv_rerender; auto. unfold resetGame. rewrite H3. discriminate.
  - destruct (gameStarted (ui w)); [|exact HI].
    apply Inv_rerender; auto.
  - destruct (interval w); [|exact HI].
    apply Inv_rerender; auto.
  - destruct (nth_error (timeouts w) k) as [t|]; [|exact HI].
    destruct (runTimeout_ok t (ui w) Hids) as (H1 & H2 & H3 & H4 & H5).
    apply Inv_rerender; auto.
    + rewrite H3, H4, Hcomp. intro Hc. apply andb_true_iff in Hc.
      destruct Hc as [Hpos Hall]. rewrite Hpos, (H5 Hall). reflexivity.
    + intros t' Hin. apply Hts. apply In_removeAt in Hin. exact Hin.
Qed.

Theorem reachable_Inv (w : World) : reachable w -> Inv w.
Proof.
  induction 1 as [|w e _ IH]; [exact Inv_initial | apply Inv_step, IH].
Qed.

End Invariant.

(** ** What each event does to the statistics *)

Section Statistics.

Lemma runTimeout_stats (t : Timeout) (s : State) :
  isGameComplete (stats (runTimeout t s)) = isGameComplete (stats s) /\
  moves (stats (runTimeout t s)) = moves (stats s) /\
  timeElapsed (stats (runTimeout t s)) = timeElapsed (stats s) /\
  gameStarted (runTimeout t s) = gameStarted s.
Proof. unfold runTimeout. destruct (kind t); repeat split. Qed.

(** The state left by a click on the grid that was not ignored. *)
Lemma step_click (w : World) (index : nat) :
  step w (ClickCard index) = w \/
  exists card s' ts,
    nth_error (cards (ui w)) index = Some card /\
    isClickable (ui w) && negb (isFlipped card) && negb (isMatched card) = true /\
    step w (ClickCard index) = rerender w s' true ts /\
    isGameComplete (stats s') = isGameComplete (stats (ui w)) /\
    timeElapsed (stats s') = timeElapsed (stats (ui w)) /\
    gameStarted s' = gameStarted (ui w).
Proof.
  unfold step. cbv zeta.
  destruct (gameStarted (ui w)) eqn:Hon; [|left; reflexivity].
  destruct (nth_error (cards (ui w)) index) as [card|] eqn:Hnth;
    [|left; reflexivity].
  unfold GameCard_handleClick.
  destruct (isClickable (ui w) && negb (isFlipped card) && negb (isMatched card))
    eqn:Hguard; [|left; reflexivity].
  destruct (Nat.eq_dec (length (flippedCards (ui w))) 2) as [Htwo | Htwo].
  { rewrite handleCardClick_early by exact Htwo. left. reflexivity. }
  destruct (handleCardClick_shape (ui w) (id card) Htwo)
    as (s' & o & Hout & _ & _ & _ & Hstarted & Hflag & Htime & _).
  right. exists card, s'.
  destruct Hout as [Hout | [Hout _]]; rewrite Hout;
    [destruct o as [t|]|]; eexists; repeat split; congruence.
Qed.

Lemma nondeal_keeps_complete (w : World) (e : Event) :
  deals e = false ->
  isGameComplete (stats (ui w)) = true ->
  isGameComplete (stats (ui (step w e))) = true.
Proof.
  intros He Hc.
  destruct e as [shuffle | d | index | shuffle | | | k]; try discriminate.
  - unfold step. cbv zeta. destruct (gameStarted (ui w)); exact Hc.
  - destruct (step_click w index)
      as [-> | (card & s' & ts & _ & _ & -> & Hflag & _)]; [exact Hc|].
    rewrite rerender_ui. apply completionEffect_monotone.
    rewrite Hflag. exact Hc.
  - unfold step. cbv zeta. destruct (gameStarted (ui w)); exact Hc.
  - unfold step. cbv zeta. destruct (interval w); exact Hc.
  - unfold step. cbv zeta. destruct (nth_error (timeouts w) k) as [t|]; [|exact Hc].
    rewrite rerender_ui. apply completionEffect_monotone.
    rewrite (proj1 (runTimeout_stats t (ui w))). exact Hc.
Qed.

Lemma only_ticks_and_deals_move_the_clock (w : World) (e : Event) :
  deals e = false ->
  e <> IntervalFires ->
  timeElapsed (stats (ui (step w e))) = timeElapsed (stats (ui w)).
Proof.
  intros He Htick.
  destruct e as [shuffle | d | index | shuffle | | | k];
    try discriminate; try contradiction.
  - unfold step. cbv zeta. destruct (gameStarted (ui w)); reflexivity.
  - destruct (step_click w index)
      as [-> | (card & s' & ts & _ & _ & -> & _ & Htime & _)]; [reflexivity|].
    rewrite rerender_ui.
    destruct (completionEffect_frame s') as (_ & _ & _ & _ & _ & _ & _ & ->).
    exact Htime.
  - unfold step. cbv zeta. destruct (gameStarted (ui w)); reflexivity.
  - unfold step. cbv zeta. destruct (nth_error (timeouts w) k) as [t|]; [|reflexivity].
    rewrite rerender_ui.
    destruct (completionEffect_frame (runTimeout t (ui w)))
      as (_ & _ & _ & _ & _ & _ & _ & ->).
    apply runTimeout_stats.
Qed.

Lemma tick_when_stopped (w : World) :
  interval w = timerWanted (ui w) ->
  gameStarted (ui w) = false \/ isGameComplete (stats (ui w)) = true ->
  step w IntervalFires = w.
Proof.
  intros Hiv Hoff. unfold step. cbv zeta. rewrite Hiv. unfold timerWanted.
  destruct Hoff as [-> | ->]; [|rewrite orb_true_r]; reflexivity.
Qed.

Lemma complete_stops_clock (es : list Event) :
  forall w,
    reachable w ->
    isGameComplete (stats (ui w)) = true ->
    forallb (fun e => negb (deals e)) es = true ->
    timeElapsed (stats (ui (run w es))) = timeElapsed (stats (ui w)).
Proof.
  induction es as [|e es IH]; intros w Hr Hc Hes; [reflexivity|].
  simpl in Hes. apply andb_true_iff in Hes. destruct Hes as [He Hes].
  apply negb_true_iff in He.
  unfold run. simpl. fold (run (step w e) es).
  rewrite IH;
    [| apply reachable_step, Hr | apply nondeal_keeps_complete; assumption
     | exact Hes].
  destruct e as [shuffle | d | index | shuffle | | | k];
    try (apply only_ticks_and_deals_move_the_clock; [exact He | discriminate]).
  rewrite tick_when_stopped; [reflexivity | apply reachable_Inv, Hr | right; exact Hc].
Qed.

End Statistics.

Lemma reachable_run (es : list Event) :
  forall w, reachable w -> reachable (run w es).
Proof.
  induction es as [|e es IH]; intros w Hr; [exact Hr|].
  apply (IH (step w e)), reachable_step, Hr.
Qed.

(** The walkthrough ends with all 16 cards matched after 8 moves, the
    completion flag set and the interval cleared. *)
Lemma easyWalkthrough_completes :
  let w := run initialWorld easyWalkthrough in
  stats (ui w) = mkGameStats 8 8 0 true /\
  forallb isMatched (cards (ui w)) = true /\
  length (cards (ui w)) = 16 /\
  interval w = false /\
  timeouts w = [].
Proof. vm_compute. repeat split. Qed.

(** ** Starting a session *)

Lemma fresh_deck_not_complete (shuffle : list string -> list string) (s : State) :
  completionEffect (initializeGame shuffle s) = initializeGame shuffle s.
Proof.
  unfold completionEffect, initializeGame, shuffledCards.
  cbn [cards setCards setFlippedCards setStats setIsClickable].
  destruct (shuffle _) as [|e l]; [reflexivity|].
  cbn [mapIndexed forallb isMatched andb]. rewrite andb_false_r. reflexivity.
Qed.

(** C2, refuted as stated: the catalog holds 17 distinct symbols, fewer
    than the 32 that hard needs, and yet Start Game on hard starts the
    session, with a deck of 36 cards and no error. *)
Lemma C2_no_configuration_error :
  let w := run initialWorld [SelectDifficulty hard; ClickStartGame (fun l => l)] in
  length (nodup string_dec CARD_EMOJIS)
    < gridSize (DIFFICULTY_CONFIG hard) * gridSize (DIFFICULTY_CONFIG hard) / 2 /\
  gameStarted (ui w) = true /\
  length (cards (ui w)) = 36.
Proof. vm_compute. repeat split; lia. Qed.

(** C2 as amended: deck construction has no failure path and never
    inspects the size of the catalog.  From the start screen, whatever the
    difficulty and the shuffle, Start Game starts the session on the deck
    that [initializeGame] dealt, with an empty selection and the counters
    at 0; no pending timeout is added or removed. *)
Theorem C2_start_never_fails
    (shuffle : list string -> list string) (w : World) :
  gameStarted (ui w) = false ->
  ui (step w (ClickStartGame shuffle)) = startGame shuffle (ui w) /\
  gameStarted (ui (step w (ClickStartGame shuffle))) = true /\
  cards (ui (step w (ClickStartGame shuffle)))
    = shuffledCards CARD_EMOJIS shuffle (difficulty (ui w)) /\
  flippedCards (ui (step w (ClickStartGame shuffle))) = [] /\
  stats (ui (step w (ClickStartGame shuffle))) = mkGameStats 0 0 0 false /\
  timeouts (step w (ClickStartGame shuffle)) = timeouts w.
Proof.
  intro Hoff.
  assert (E : ui (step w (ClickStartGame shuffle)) = startGame shuffle (ui w)).
  { unfold step. cbv zeta. rewrite Hoff, rerender_ui.
    apply fresh_deck_not_complete. }
  rewrite E. repeat split.
  unfold step. cbv zeta. rewrite Hoff. apply rerender_timeouts.
Qed.

Lemma C2_start_never_fails_witness :
  gameStarted (ui (step initialWorld (SelectDifficulty hard))) = false /\
  gameStarted (ui (run initialWorld
                     [SelectDifficulty hard; ClickStartGame (fun l => l)])) = true.
Proof.
  split; [reflexivity|].
  exact (proj1 (proj2 (C2_start_never_fails (fun l => l)
                         (step initialWorld (SelectDifficulty hard)) eq_refl))).
Defined.

(** C3 (the code departs from it): a reset cancels the pending commit and
    the stale commit never touches the new session.  In the code nothing
    clears a timeout.  On easy, cards 0 and 8 of the unshuffled deck match,
    so the match commit is pending; Reset Game deals a new deck with all
    counters at 0 and, like Start Game, leaves every timeout registered;
    when the commit fires, cards 0 and 8 of the new deck, which carry
    different symbols and were never selected, are marked matched and the
    match counter becomes 1. *)
Theorem C3_stale_commit_applies :
  (forall w shuffle,
     timeouts (step w (ClickResetGame shuffle)) = timeouts w /\
     timeouts (step w (ClickStartGame shuffle)) = timeouts w) /\
  let pending :=
    run initialWorld [ClickStartGame (fun l => l); ClickCard 0; ClickCard 8] in
  let fresh := step pending (ClickResetGame swapFirstTwo) in
  let after := step fresh (TimeoutFires 0) in
  timeouts pending = [mkTimeout MatchFound [0; 8] 600] /\
  timeouts fresh = timeouts pending /\
  stats (ui fresh) = mkGameStats 0 0 0 false /\
  flippedCards (ui fresh) = [] /\
  forallb (fun card => negb (isMatched card)) (cards (ui fresh)) = true /\
  matches (stats (ui after)) = 1 /\
  map id (filter isMatched (cards (ui after))) = [0; 8] /\
  map emoji (filter isMatched (cards (ui after))) = ["🎯"; "🎮"].
Proof.
  split.
  - intros w shuffle. unfold step. cbv zeta.
    destruct (gameStarted (ui w)); rewrite ?rerender_timeouts; split; reflexivity.
  - vm_compute. repeat split.
Qed.

(** ** Rejected selections *)

(** C4: in every state, a click on a card that is already face up or
    already matched changes nothing: [GameCard]'s guard does not call
    [handleCardClick], and the world (cards, selection, counters, pending
    timeouts) stays as it is. *)
Theorem C4_face_up_or_matched_rejected (w : World) (index : nat) (card : Card) :
  nth_error (cards (ui w)) index = Some card ->
  isFlipped card = true \/ isMatched card = true ->
  GameCard_handleClick (ui w) card = None /\
  step w (ClickCard index) = w.
Proof.
  intros Hnth Hup.
  assert (Hguard : GameCard_handleClick (ui w) card = None).
  { unfold GameCard_handleClick.
    destruct Hup as [-> | ->]; cbn [negb];
      rewrite ?andb_false_r; reflexivity. }
  split; [exact Hguard|].
  unfold step. cbv zeta. rewrite Hnth, Hguard.
  destruct (gameStarted (ui w)); reflexivity.
Qed.

Lemma C4_face_up_or_matched_rejected_witness :
  let w := run initialWorld [ClickStartGame (fun l => l); ClickCard 0] in
  nth_error (cards (ui w)) 0 = Some (mkCard 0 "🎮" true false) /\
  step w (ClickCard 0) = w.
Proof.
  split; [reflexivity|].
  exact (proj2 (C4_face_up_or_matched_rejected
                  (run initialWorld [ClickStartGame (fun l => l); ClickCard 0])
                  0 (mkCard 0 "🎮" true false) eq_refl (or_introl eq_refl))).
Defined.

(** The guard on the first line of [handleCardClick]: while
    [flippedCards] holds two ids, the handler returns at once for any card
    and a click on any card of the grid leaves the whole world unchanged. *)
Lemma two_selected_ignore_clicks (w : World) (index : nat) :
  length (flippedCards (ui w)) = 2 ->
  (forall cardId, handleCardClick (ui w) cardId = ReturnedEarly) /\
  step w (ClickCard index) = w.
Proof.
  intro Htwo. split; [intro cardId; apply handleCardClick_early, Htwo|].
  unfold step. cbv zeta.
  destruct (gameStarted (ui w)); [|reflexivity].
  destruct (nth_error (cards (ui w)) index) as [card|]; [|reflexivity].
  unfold GameCard_handleClick.
  destruct (isClickable (ui w) && negb (isFlipped card) && negb (isMatched card));
    [|reflexivity].
  rewrite handleCardClick_early by exact Htwo. reflexivity.
Qed.

(** C5 (the code departs from it): while two selected cards await their
    resolution, a further selection changes nothing.  The code keeps this
    only as long as [flippedCards] still holds the two ids.  A commit left
    over from before a Reset Game (the defect of C3) empties [flippedCards]
    and enables the grid when it fires: on easy, after the first pair (0, 1)
    a reset, then cards 4 and 5 are selected and their mismatch commit is
    pending; a click on card 6 is ignored until the stale commit of (0, 1)
    fires; after that cards 4 and 5 are still face up, unmatched, their
    commit still pending, and the click on card 6 is accepted: three
    unmatched cards lie face up. *)
Theorem C5_stale_commit_reopens_grid :
  (forall w index,
     length (flippedCards (ui w)) = 2 -> step w (ClickCard index) = w) /\
  let awaiting :=
    run initialWorld
      [ClickStartGame (fun l => l); ClickCard 0; ClickCard 1;
       ClickResetGame (fun l => l); ClickCard 4; IntervalFires; ClickCard 5] in
  let reopened := step awaiting (TimeoutFires 0) in
  let faceUpUnmatched (v : World) :=
    map id (filter (fun card => isFlipped card && negb (isMatched card))
              (cards (ui v))) in
  reachable reopened /\
  timeouts awaiting
  = [mkTimeout NoMatch [0; 1] 1200; mkTimeout NoMatch [4; 5] 1200] /\
  flippedCards (ui awaiting) = [4; 5] /\
  step awaiting (ClickCard 6) = awaiting /\
  timeouts reopened = [mkTimeout NoMatch [4; 5] 1200] /\
  faceUpUnmatched reopened = [4; 5] /\
  flippedCards (ui reopened) = [] /\
  isClickable (ui reopened) = true /\
  step reopened (ClickCard 6) <> reopened /\
  flippedCards (ui (step reopened (ClickCard 6))) = [6] /\
  faceUpUnmatched (step reopened (ClickCard 6)) = [4; 5; 6].
Proof.
  split; [intros w index Htwo; apply two_selected_ignore_clicks, Htwo|].
  cbv zeta.
  split; [apply reachable_step, reachable_run, reachable_initial|].
  do 7 (split; [vm_compute; reflexivity|]).
  split; [|split; vm_compute; reflexivity].
  intro H. apply (f_equal (fun v => flippedCards (ui v))) in H.
  vm_compute in H. discriminate H.
Qed.

(** ** Completion *)

(** A deal with a permuting shuffle puts cards on the table. *)
Lemma dealt_deck_nonempty (shuffle : list string -> list string) (d : Difficulty) :
  permutes shuffle -> shuffledCards CARD_EMOJIS shuffle d <> [].
Proof.
  intros Hperm Hnil.
  pose proof (shuffledCards_length shuffle Hperm CARD_EMOJIS d) as Hlen.
  rewrite Hnil in Hlen. destruct d; vm_compute in Hlen; discriminate.
Qed.

(** C6: in every reachable world with a dealt deck, the completion flag is
    true exactly when every card of the deck is matched; and once true it
    is still true after every event that does not deal a new deck (Start
    Game and Reset Game are the two that do). *)
Theorem C6_completion_flag (w : World) :
  reachable w ->
  cards (ui w) <> [] ->
  (isGameComplete (stats (ui w)) = true <->
   forall card, In card (cards (ui w)) -> isMatched card = true) /\
  (forall e, deals e = false ->
     isGameComplete (stats (ui w)) = true ->
     isGameComplete (stats (ui (step w e))) = true).
Proof.
  intros Hr Hdeck. split; [|intros e He Hc; apply nondeal_keeps_complete; assumption].
  rewrite (inv_completion w (reachable_Inv w Hr)).
  rewrite <- forallb_forall.
  destruct (cards (ui w)) as [|card l]; [contradiction|].
  cbn [length Nat.ltb Nat.leb andb]. reflexivity.
Qed.

Lemma C6_completion_flag_witness :
  let w := run initialWorld easyWalkthrough in
  reachable w /\ cards (ui w) <> [] /\
  (isGameComplete (stats (ui w)) = true <->
   forall card, In card (cards (ui w)) -> isMatched card = true).
Proof.
  assert (Hr : reachable (run initialWorld easyWalkthrough))
    by (apply reachable_run, reachable_initial).
  assert (Hdeck : cards (ui (run initialWorld easyWalkthrough)) <> [])
    by (vm_compute; discriminate).
  split; [exact Hr|]. split; [exact Hdeck|].
  exact (proj1 (C6_completion_flag _ Hr Hdeck)).
Defined.

(** ** The clock *)

(** C7: each firing of the one-second interval adds 1 to the elapsed time
    while the game is started and not complete; once the completion flag is
    true the elapsed time stays put through any events that do not deal;
    Reset Game and Start Game set it to 0; and no event other than the
    interval and a deal changes it.  (The interval's period of 1000 ms is
    the browser's; the model counts firings.) *)
Theorem C7_session_clock (w : World) :
  reachable w ->
  (gameStarted (ui w) = true ->
   isGameComplete (stats (ui w)) = false ->
   timeElapsed (stats (ui (step w IntervalFires)))
   = timeElapsed (stats (ui w)) + 1) /\
  (isGameComplete (stats (ui w)) = true ->
   forall es, forallb (fun e => negb (deals e)) es = true ->
     timeElapsed (stats (ui (run w es))) = timeElapsed (stats (ui w))) /\
  (forall shuffle, gameStarted (ui w) = true ->
     timeElapsed (stats (ui (step w (ClickResetGame shuffle)))) = 0) /\
  (forall shuffle, gameStarted (ui w) = false ->
     timeElapsed (stats (ui (step w (ClickStartGame shuffle)))) = 0) /\
  (forall e, deals e = false -> e <> IntervalFires ->
     timeElapsed (stats (ui (step w e))) = timeElapsed (stats (ui w))).
Proof.
  intro Hr. pose proof (reachable_Inv w Hr) as HI.
  split; [|split; [|split; [|split]]].
  - intros Hon Hc. unfold step. cbv zeta.
    rewrite (inv_interval w HI). unfold timerWanted. rewrite Hon, Hc.
    cbn [negb orb]. rewrite rerender_ui. reflexivity.
  - intros Hc es Hes. apply complete_stops_clock; assumption.
  - intros shuffle Hon. unfold step. cbv zeta. rewrite Hon, rerender_ui.
    destruct (completionEffect_frame (resetGame shuffle (ui w)))
      as (_ & _ & _ & _ & _ & _ & _ & ->).
    reflexivity.
  - intros shuffle Hoff. unfold step. cbv zeta. rewrite Hoff, rerender_ui.
    destruct (completionEffect_frame (startGame shuffle (ui w)))
      as (_ & _ & _ & _ & _ & _ & _ & ->).
    reflexivity.
  - intros e He Htick. apply only_ticks_and_deals_move_the_clock; assumption.
Qed.

Lemma C7_session_clock_witness :
  let started :=
    run initialWorld [ClickStartGame (fun l => l); IntervalFires; IntervalFires] in
  let complete := run initialWorld easyWalkthrough in
  reachable started /\
  timeElapsed (stats (ui started)) = 2 /\
  timeElapsed (stats (ui (step started IntervalFires))) = 2 + 1 /\
  timeElapsed (stats (ui (step started (ClickResetGame swapFirstTwo)))) = 0 /\
  reachable complete /\
  timeElapsed (stats (ui (run complete [IntervalFires; ClickCard 3; IntervalFires])))
  = timeElapsed (stats (ui complete)).
Proof.
  assert (Hs : reachable (run initialWorld
                [ClickStartGame (fun l => l); IntervalFires; IntervalFires]))
    by (apply reachable_run, reachable_initial).
  assert (Hc : reachable (run initialWorld easyWalkthrough))
    by (apply reachable_run, reachable_initial).
  split; [exact Hs|]. split; [reflexivity|].
  split; [exact (proj1 (C7_session_clock _ Hs) eq_refl eq_refl)|].
  split; [exact (proj1 (proj2 (proj2 (C7_session_clock _ Hs))) swapFirstTwo eq_refl)|].
  split; [exact Hc|].
  exact (proj1 (proj2 (C7_session_clock _ Hc)) eq_refl
           [IntervalFires; ClickCard 3; IntervalFires] eq_refl).
Defined.

(** ** Moves *)



(** ** Changing the difficulty *)

Lemma off_screen_only_start_resumes (v : World) (e : Event) :
  gameStarted (ui v) = false ->
  gameStarted (ui (step v e)) = true ->
  exists shuffle,
    e = ClickStartGame shuffle /\
    ui (step v e) = startGame shuffle (ui v).
Proof.
  intros Hoff Hon.
  destruct e as [shuffle | d | index | shuffle | | | k];
    unfold step in Hon |- *; cbv zeta in Hon |- *; rewrite ?Hoff in Hon |- *;
    try congruence.
  - exists shuffle. split; [reflexivity|].
    rewrite rerender_ui. apply fresh_deck_not_complete.
  - rewrite rerender_ui in Hon. cbn in Hon. congruence.
  - destruct (interval v); [rewrite rerender_ui in Hon; cbn in Hon|]; congruence.
  - destruct (nth_error (timeouts v) k) as [t|]; [|congruence].
    rewrite rerender_ui in Hon.
    destruct (completionEffect_frame (runTimeout t (ui v)))
      as (_ & _ & _ & E & _). rewrite E in Hon.
    rewrite (proj2 (proj2 (proj2 (runTimeout_stats t (ui v))))) in Hon.
    congruence.
Qed.

(** C9: changing the difficulty of a running game goes through the start
    screen (Change Difficulty, the difficulty selector, Start Game) and
    ends in a session that owes nothing to the previous one: the deck is
    newly dealt for the chosen difficulty, the selection is empty, and
    moves, matches, elapsed time and completion flag are 0, 0, 0 and false.
    Change Difficulty itself only leaves the game screen; from there no
    event shows the game again except Start Game, which deals anew. *)
Theorem C9_change_difficulty_resets
    (w : World) (d : Difficulty) (shuffle : list string -> list string) :
  gameStarted (ui w) = true ->
  gameStarted (ui (step w ClickChangeDifficulty)) = false /\
  (forall v e,
     gameStarted (ui v) = false ->
     gameStarted (ui (step v e)) = true ->
     exists shuffle',
       e = ClickStartGame shuffle' /\
       cards (ui (step v e))
         = shuffledCards CARD_EMOJIS shuffle' (difficulty (ui v)) /\
       stats (ui (step v e)) = mkGameStats 0 0 0 false /\
       flippedCards (ui (step v e)) = []) /\
  let w' := run w [ClickChangeDifficulty; SelectDifficulty d; ClickStartGame shuffle] in
  cards (ui w') = shuffledCards CARD_EMOJIS shuffle d /\
  stats (ui w') = mkGameStats 0 0 0 false /\
  flippedCards (ui w') = [] /\
  difficulty (ui w') = d /\
  gameStarted (ui w') = true /\
  isClickable (ui w') = true.
Proof.
  intro Hon. split; [|split].
  - unfold step. cbv zeta. rewrite Hon, rerender_ui. reflexivity.
  - intros v e Hoff Hshown.
    destruct (off_screen_only_start_resumes v e Hoff Hshown) as (sh & -> & E).
    exists sh. rewrite E. repeat split.
  - cbv zeta. unfold run. cbn [fold_left].
    assert (E1 : ui (step w ClickChangeDifficulty) = setGameStarted false (ui w)).
    { unfold step. cbv zeta. rewrite Hon, rerender_ui. reflexivity. }
    assert (E2 : ui (step (step w ClickChangeDifficulty) (SelectDifficulty d))
                 = setDifficulty d (setGameStarted false (ui w))).
    { unfold step at 1. cbv zeta. rewrite E1. cbn [gameStarted setGameStarted].
      rewrite rerender_ui. reflexivity. }
    assert (E3 : ui (step (step (step w ClickChangeDifficulty) (SelectDifficulty d))
                          (ClickStartGame shuffle))
                 = startGame shuffle (setDifficulty d (setGameStarted false (ui w)))).
    { unfold step at 1. cbv zeta. rewrite E2.
      cbn [gameStarted setGameStarted setDifficulty].
      rewrite rerender_ui. apply fresh_deck_not_complete. }
    rewrite E3. repeat split.
Qed.

Lemma C9_change_difficulty_resets_witness :
  let w := run initialWorld easyWalkthrough in
  let w' := run w [ClickChangeDifficulty; SelectDifficulty medium;
                   ClickStartGame swapFirstTwo] in
  gameStarted (ui w) = true /\
  stats (ui w) = mkGameStats 8 8 0 true /\
  stats (ui w') = mkGameStats 0 0 0 false /\
  cards (ui w') = shuffledCards CARD_EMOJIS swapFirstTwo medium.
Proof.
  split; [reflexivity|]. split; [reflexivity|].
  pose proof (proj2 (proj2 (C9_change_difficulty_resets
                              (run initialWorld easyWalkthrough) medium swapFirstTwo
                              eq_refl))) as H.
  cbv zeta in H. split; [exact (proj1 (proj2 H)) | exact (proj1 H)].
Defined.

(** ** The mismatch commit *)

(** C10: when a pending mismatch commit that captured the ids [a] and [b]
    fires in a reachable world, [a] and [b] are different, the deck keeps
    its length, and position by position the card is the same card, with
    id, symbol and matched flag as before, except that at positions [a] and
    [b] its [isFlipped] is false. *)
Theorem C10_mismatch_frame (w : World) (k : nat) (t : Timeout) (a b : nat) :
  reachable w ->
  nth_error (timeouts w) k = Some t ->
  kind t = NoMatch ->
  captured t = [a; b] ->
  a <> b /\
  length (cards (ui (step w (TimeoutFires k)))) = length (cards (ui w)) /\
  forall i card,
    nth_error (cards (ui w)) i = Some card ->
    nth_error (cards (ui (step w (TimeoutFires k)))) i
    = Some (if (i =? a) || (i =? b)
            then mkCard (id card) (emoji card) false (isMatched card)
            else card).
Proof.
  intros Hr Hk Hkind Hcap. pose proof (reachable_Inv w Hr) as HI.
  split.
  - destruct (inv_captured w HI t (nth_error_In _ _ Hk)) as (a' & b' & E & Hne).
    rewrite Hcap in E. injection E as -> ->. exact Hne.
  - assert (E : cards (ui (step w (TimeoutFires k)))
                = map (fun card => if includes [a; b] (id card)
                                   then withFlipped false card else card)
                    (cards (ui w))).
    { unfold step. cbv zeta. rewrite Hk, rerender_ui.
      rewrite (proj1 (completionEffect_frame _)).
      unfold runTimeout. rewrite Hkind, Hcap. reflexivity. }
    rewrite E. split; [apply length_map|].
    intros i card Hnth. rewrite (nth_error_map_at _ _ _ _ Hnth).
    rewrite <- (ids_nth _ _ _ (inv_ids w HI) Hnth).
    unfold includes. cbn [existsb]. rewrite orb_false_r. reflexivity.
Qed.

Lemma C10_mismatch_frame_witness :
  let w := run initialWorld [ClickStartGame (fun l => l); ClickCard 0; ClickCard 1] in
  reachable w /\
  nth_error (timeouts w) 0 = Some (mkTimeout NoMatch [0; 1] 1200) /\
  map isFlipped (cards (ui w)) = [true; true] ++ repeat false 14 /\
  nth_error (cards (ui (step w (TimeoutFires 0)))) 1
  = Some (mkCard 1 "🎯" false false) /\
  nth_error (cards (ui (step w (TimeoutFires 0)))) 2
  = Some (mkCard 2 "🎲" false false).
Proof.
  assert (Hr : reachable (run initialWorld
                            [ClickStartGame (fun l => l); ClickCard 0; ClickCard 1]))
    by (apply reachable_run, reachable_initial).
  split; [exact Hr|]. split; [reflexivity|]. split; [reflexivity|].
  pose proof (proj2 (proj2 (C10_mismatch_frame _ 0 (mkTimeout NoMatch [0; 1] 1200) 0 1
                              Hr eq_refl eq_refl eq_refl))) as H.
  split.
  - exact (H 1 (mkCard 1 "🎯" true false) eq_refl).
  - exact (H 2 (mkCard 2 "🎲" false false) eq_refl).
Defined.

(** * Beyond the claims *)

(** ** The clock display *)

Section FormatTime.

Lemma string_append_length (a b : string) :
  String.length (String.append a b) = String.length a + String.length b.
Proof. induction a as [|c a IH]; simpl; [|rewrite IH]; reflexivity. Qed.

Lemma string_append_split (a a' b b' : string) :
  String.length a = String.length a' ->
  String.append a b = String.append a' b' ->
  a = a' /\ b = b'.
Proof.
  revert a'. induction a as [|c a IH]; intros [|c' a'] Hlen Heq;
    try discriminate.
  - split; [reflexivity | exact Heq].
  - simpl in Hlen, Heq. injection Hlen as Hlen. injection Heq as -> Heq.
    destruct (IH a' Hlen Heq) as [-> ->]. split; reflexivity.
Qed.

Lemma toString_injective (n m : nat) : toString n = toString m -> n = m.
Proof.
  unfold toString. intro H.
  apply (f_equal DecimalString.NilEmpty.uint_of_string) in H.
  rewrite !DecimalString.NilEmpty.usu in H. injection H as H.
  apply DecimalNat.Unsigned.to_uint_inj, H.
Qed.

(** The seconds field, for the values that [seconds % 60] takes. *)
Lemma seconds_field (r : nat) :
  r < 60 ->
  padStart 2 "0" (toString r)
  = String.append (toString (r / 10)) (toString (r mod 10)) /\
  String.length (padStart 2 "0" (toString r)) = 2 /\
  option_map Nat.of_uint
    (DecimalString.NilEmpty.uint_of_string (padStart 2 "0" (toString r)))
  = Some r.
Proof.
  intro Hr.
  do 60 (destruct r as [|r]; [vm_compute; repeat split|]).
  lia.
Qed.

End FormatTime.

(** X1: [formatTime] prints the whole minutes in decimal, a colon, and the
    remaining seconds on exactly two decimal digits, the tens first. *)
Theorem X1_formatTime_layout (seconds : nat) :
  formatTime seconds
  = String.append (toString (seconds / 60))
      (String.append ":"
         (String.append (toString (seconds mod 60 / 10))
                        (toString (seconds mod 60 mod 10)))) /\
  String.length (formatTime seconds)
  = String.length (toString (seconds / 60)) + 3.
Proof.
  assert (Hr : seconds mod 60 < 60) by (apply Nat.mod_upper_bound; discriminate).
  destruct (seconds_field _ Hr) as (Hfield & Hlen & _).
  unfold formatTime. cbv zeta. split.
  - rewrite Hfield. reflexivity.
  - rewrite !string_append_length, Hlen. simpl. lia.
Qed.

(** X2: two different numbers of seconds are never displayed alike. *)
Theorem X2_formatTime_injective (s1 s2 : nat) :
  formatTime s1 = formatTime s2 -> s1 = s2.
Proof.
  intro Heq.
  assert (H1 : s1 mod 60 < 60) by (apply Nat.mod_upper_bound; discriminate).
  assert (H2 : s2 mod 60 < 60) by (apply Nat.mod_upper_bound; discriminate).
  pose proof (Nat.div_mod_eq s1 60) as D1.
  pose proof (Nat.div_mod_eq s2 60) as D2.
  unfold formatTime in Heq. cbv zeta in Heq.
  remember (s1 mod 60) as r1 eqn:E1. remember (s2 mod 60) as r2 eqn:E2.
  remember (s1 / 60) as m1 eqn:F1. remember (s2 / 60) as m2 eqn:F2.
  destruct (seconds_field r1 H1) as (_ & L1 & P1).
  destruct (seconds_field r2 H2) as (_ & L2 & P2).
  assert (Hlen : String.length (toString m1) = String.length (toString m2)).
  { apply (f_equal String.length) in Heq.
    rewrite !string_append_length, L1, L2 in Heq. lia. }
  destruct (string_append_split _ _ _ _ Hlen Heq) as [Hmins Hrest].
  apply toString_injective in Hmins.
  destruct (string_append_split ":" ":" _ _ eq_refl Hrest) as [_ Hsecs].
  rewrite Hsecs, P2 in P1. injection P1 as Hmod.
  congruence.
Qed.

Lemma X2_formatTime_injective_witness :
  formatTime 65 = "1:05" /\ formatTime (60 + 5) = formatTime 65 /\ 60 + 5 = 65.
Proof.
  split; [reflexivity|]. split; [reflexivity|].
  exact (X2_formatTime_injective (60 + 5) 65 eq_refl).
Defined.

(** ** The deal *)

(** X3: whatever the catalog and the difficulty, a deal with a permuting
    shuffle numbers the cards by position from 0, lays every card face
    down and unmatched, and carries, in some order, the selected symbols
    twice over: the multiset of symbols does not depend on the shuffle. *)
Theorem X3_deal_shape
    (catalog : list string) (shuffle : list string -> list string)
    (d : Difficulty) :
  permutes shuffle ->
  let selected :=
    firstn (gridSize (DIFFICULTY_CONFIG d) * gridSize (DIFFICULTY_CONFIG d) / 2)
           catalog in
  let deck := shuffledCards catalog shuffle d in
  map id deck = seq 0 (length deck) /\
  (forall card, In card deck -> isFlipped card = false /\ isMatched card = false) /\
  Permutation (map emoji deck) (selected ++ selected) /\
  length deck = 2 * length selected.
Proof.
  intro Hperm. cbv zeta. unfold shuffledCards. cbv zeta.
  split; [rewrite mapIndexed_id, mapIndexed_length; reflexivity|].
  split; [intros card Hin; exact (mapIndexed_fresh _ _ _ Hin)|].
  split; [rewrite mapIndexed_emoji; apply Hperm|].
  rewrite mapIndexed_length, (Permutation_length (Hperm _)), length_app. lia.
Qed.

Lemma X3_deal_shape_witness :
  permutes swapFirstTwo /\
  map id (shuffledCards CARD_EMOJIS swapFirstTwo easy) = seq 0 16 /\
  length (shuffledCards CARD_EMOJIS swapFirstTwo easy) = 2 * 8.
Proof.
  split; [exact permutes_swapFirstTwo|].
  pose proof (X3_deal_shape CARD_EMOJIS swapFirstTwo easy permutes_swapFirstTwo) as H.
  cbv zeta in H. split; [exact (proj1 H) | exact (proj2 (proj2 (proj2 H)))].
Defined.

(** X4: when the symbols selected from the catalog are pairwise different,
    every symbol of the dealt deck is on exactly two cards; a symbol that
    occurs [n] times among the selected ones is on [2 n] cards. *)
Theorem X4_deal_pairs
    (catalog : list string) (shuffle : list string -> list string)
    (d : Difficulty) :
  permutes shuffle ->
  let selected :=
    firstn (gridSize (DIFFICULTY_CONFIG d) * gridSize (DIFFICULTY_CONFIG d) / 2)
           catalog in
  let deck := shuffledCards catalog shuffle d in
  (forall e, count_occ string_dec (map emoji deck) e
             = 2 * count_occ string_dec selected e) /\
  (NoDup selected ->
   forall e, In e (map emoji deck) ->
     count_occ string_dec (map emoji deck) e = 2).
Proof.
  intro Hperm. cbv zeta.
  split; [intro e; apply shuffledCards_count, Hperm|].
  intros Hnd e Hin.
  apply (count_occ_In string_dec) in Hin.
  rewrite (shuffledCards_count shuffle Hperm) in Hin |- *.
  pose proof (proj1 (NoDup_count_occ string_dec _) Hnd e). lia.
Qed.

Lemma X4_deal_pairs_witness :
  permutes swapFirstTwo /\
  NoDup (firstn 8 CARD_EMOJIS) /\
  count_occ string_dec
    (map emoji (shuffledCards CARD_EMOJIS swapFirstTwo easy)) "🎲" = 2.
Proof.
  assert (Hnd : NoDup (firstn 8 CARD_EMOJIS)).
  { apply (NoDup_count_occ' string_dec). intros x Hx. simpl in Hx.
    repeat (destruct Hx as [<- | Hx]; [vm_compute; reflexivity|]).
    contradiction. }
  split; [exact permutes_swapFirstTwo|]. split; [exact Hnd|].
  refine (proj2 (X4_deal_pairs CARD_EMOJIS swapFirstTwo easy permutes_swapFirstTwo)
            Hnd "🎲" _).
  vm_compute. tauto.
Defined.

(** ** Accepted clicks, exactly *)

Section AcceptedClick.

Lemma completionEffect_unmatched (s : State) (i : nat) (card : Card) :
  nth_error (cards s) i = Some card ->
  isMatched card = false ->
  completionEffect s = s.
Proof.
  intros Hnth Hfree. unfold completionEffect.
  replace (forallb isMatched (cards s)) with false;
    [rewrite andb_false_r; reflexivity|].
  symmetry. apply not_true_is_false. intro Hall.
  rewrite forallb_forall in Hall.
  rewrite (Hall card (nth_error_In _ _ Hnth)) in Hfree. discriminate.
Qed.

Lemma rerender_plain (w : World) (s' : State) (cardsSet : bool) (ts : list Timeout) :
  gameStarted s' = gameStarted (ui w) ->
  isGameComplete (stats s') = isGameComplete (stats (ui w)) ->
  completionEffect s' = s' ->
  rerender w s' cardsSet ts = mkWorld s' ts (interval w).
Proof.
  intros Hon Hflag Hce. unfold rerender. rewrite Hce.
  unfold timerEffect, timerDeps. rewrite Hon, Hflag, !eqb_reflx.
  destruct cardsSet; reflexivity.
Qed.

Variable w : World.
Variable index : nat.
Variable card : Card.
Hypothesis ids : idsArePositions (ui w).
Hypothesis shown : gameStarted (ui w) = true.
Hypothesis here : nth_error (cards (ui w)) index = Some card.
Hypothesis enabled : isClickable (ui w) = true.
Hypothesis faceDown : isFlipped card = false.
Hypothesis unmatched : isMatched card = false.

Lemma accepted_click :
  step w (ClickCard index)
  = match handleCardClick (ui w) index with
    | Returned s' (Some t) => rerender w s' true (timeouts w ++ [t])
    | Returned s' None => rerender w s' true (timeouts w)
    | Threw s' => rerender w s' true (timeouts w)
    | ReturnedEarly => w
    end.
Proof.
  unfold step. cbv zeta. rewrite shown, here. unfold GameCard_handleClick.
  rewrite enabled, faceDown, unmatched, (ids_nth _ _ _ ids here). reflexivity.
Qed.

Lemma first_click_world :
  flippedCards (ui w) = [] ->
  step w (ClickCard index)
  = mkWorld
      (setFlippedCards [index]
         (setCards (map (fun c =>
                      if id c =? index then withFlipped true c else c))
            (ui w)))
      (timeouts w) (interval w).
Proof.
  intro Hsel.
  rewrite accepted_click, (handleCardClick_first (ui w) index Hsel).
  apply rerender_plain; try reflexivity.
  apply (completionEffect_unmatched _ index
           ((fun c => if id c =? index then withFlipped true c else c) card)).
  - exact (nth_error_map_at
             (fun c => if id c =? index then withFlipped true c else c)
             _ _ _ here).
  - cbv beta. destruct (id card =? index); exact unmatched.
Qed.

Lemma second_click_world (a : nat) (firstCard : Card) :
  flippedCards (ui w) = [a] ->
  nth_error (cards (ui w)) a = Some firstCard ->
  step w (ClickCard index)
  = mkWorld
      (setStats incMoves
         (setIsClickable false
            (setFlippedCards [a; index]
               (setCards (map (fun c =>
                            if id c =? index then withFlipped true c else c))
                  (ui w)))))
      (timeouts w
       ++ [if String.eqb (emoji firstCard) (emoji card)
           then mkTimeout MatchFound [a; index] 600
           else mkTimeout NoMatch [a; index] 1200])
      (interval w).
Proof.
  intros Hsel Hfirst.
  rewrite accepted_click,
    (handleCardClick_second (ui w) index a firstCard card Hsel
       (find_by_id _ _ _ ids Hfirst) (find_by_id _ _ _ ids here)).
  apply rerender_plain; try reflexivity.
  apply (completionEffect_unmatched _ index
           ((fun c => if id c =? index then withFlipped true c else c) card)).
  - exact (nth_error_map_at
             (fun c => if id c =? index then withFlipped true c else c)
             _ _ _ here).
  - cbv beta. destruct (id card =? index); exact unmatched.
Qed.

End AcceptedClick.

(** ** The selection and the pending commits *)

Section Selection.

Lemma rerender_selection (w : World) (s' : State) (cardsSet : bool)
    (ts : list Timeout) :
  flippedCards (ui (rerender w s' cardsSet ts)) = flippedCards s' /\
  isClickable (ui (rerender w s' cardsSet ts)) = isClickable s' /\
  timeouts (rerender w s' cardsSet ts) = ts.
Proof.
  rewrite rerender_ui, rerender_timeouts.
  destruct cardsSet; [|repeat split].
  destruct (completionEffect_frame s') as (_ & -> & _ & _ & -> & _).
  repeat split.
Qed.

Lemma settled_of_cleared (w' : World) (ts : list Timeout) :
  flippedCards (ui w') = [] ->
  isClickable (ui w') = true ->
  commitsTimed ts ->
  (forall t, In t (timeouts w') -> In t ts) ->
  selectionWithinTwo (ui w') /\ commitsTimed (timeouts w') /\ selectionAwaited w'.
Proof.
  intros Hsel Hclick Hts Hsub. unfold selectionWithinTwo, selectionAwaited.
  rewrite Hsel, Hclick. cbn [length Nat.eqb negb].
  split; [split; [constructor | split; [lia | reflexivity]]|].
  split; [intros t Hin; apply Hts, Hsub, Hin | discriminate].
Qed.

Lemma settled_of_same (w w' : World) :
  flippedCards (ui w') = flippedCards (ui w) ->
  isClickable (ui w') = isClickable (ui w) ->
  timeouts w' = timeouts w ->
  selectionWithinTwo (ui w) /\ commitsTimed (timeouts w) /\ selectionAwaited w ->
  selectionWithinTwo (ui w') /\ commitsTimed (timeouts w') /\ selectionAwaited w'.
Proof.
  unfold selectionWithinTwo, selectionAwaited. intros -> -> ->. trivial.
Qed.

Theorem reachable_settled (w : World) :
  reachable w ->
  selectionWithinTwo (ui w) /\ commitsTimed (timeouts w) /\ selectionAwaited w.
Proof.
  induction 1 as [|w e Hr IH].
  { apply (settled_of_cleared initialWorld []); try reflexivity.
    - intros t [].
    - intros t []. }
  pose proof (reachable_Inv w Hr) as HI.
  pose proof IH as (Hsel & Hts & Hwait).
  destruct e as [shuffle | d | index | shuffle | | | k].
  - unfold step. cbv zeta. destruct (gameStarted (ui w)); [exact IH|].
    destruct (rerender_selection w (startGame shuffle (ui w)) true (timeouts w))
      as (E1 & E2 & E3).
    apply (settled_of_cleared _ (timeouts w)); rewrite ?E1, ?E2, ?E3; auto.
  - unfold step. cbv zeta. destruct (gameStarted (ui w)); [exact IH|].
    destruct (rerender_selection w (setDifficulty d (ui w)) false (timeouts w))
      as (E1 & E2 & E3).
    apply (settled_of_same w); auto.
  - destruct (gameStarted (ui w)) eqn:Hon;
      [|unfold step; cbv zeta; rewrite Hon; exact IH].
    destruct (nth_error (cards (ui w)) index) as [card|] eqn:Hnth;
      [|unfold step; cbv zeta; rewrite Hon, Hnth; exact IH].
    destruct (isClickable (ui w)) eqn:Hclick, (isFlipped card) eqn:Hdown,
      (isMatched card) eqn:Hfree;
      try (unfold step, GameCard_handleClick; cbv zeta;
           rewrite Hon, Hnth, Hclick, Hdown, Hfree; exact IH).
    destruct Hsel as (Hnd & Hle & Hlock). rewrite Hclick in Hlock.
    destruct (flippedCards (ui w)) as [|a [|b r]] eqn:Eflipped;
      [| |destruct r; [discriminate Hlock | simpl in Hle; lia]].
    + rewrite (first_click_world w index card (inv_ids w HI) Hon Hnth Hclick
                 Hdown Hfree Eflipped).
      unfold selectionWithinTwo, selectionAwaited.
      cbn [ui timeouts flippedCards isClickable setFlippedCards setCards
           length Nat.eqb negb].
      split; [split; [|split; [lia | exact Hclick]]|].
      * constructor; [intros [] | constructor].
      * split; [exact Hts | discriminate].
    + destruct (inv_selection w HI a) as (firstCard & Hfirst & Hup);
        [rewrite Eflipped; left; reflexivity|].
      rewrite (second_click_world w index card (inv_ids w HI) Hon Hnth Hclick
                 Hdown Hfree a firstCard Eflipped Hfirst).
      assert (Hne : a <> index).
      { intros ->. rewrite Hnth in Hfirst. injection Hfirst as <-.
        rewrite Hup in Hdown. discriminate. }
      unfold selectionWithinTwo, selectionAwaited.
      cbn [ui timeouts flippedCards isClickable setFlippedCards setCards
           setIsClickable setStats length Nat.eqb negb].
      split; [|split].
      * split; [|split; [lia | reflexivity]].
        constructor; [intros [Hin | []]; exact (Hne (eq_sym Hin))|].
        constructor; [intros [] | constructor].
      * intros t Hin. apply in_app_or in Hin.
        destruct Hin as [Hin | [<- | []]]; [exact (Hts t Hin)|].
        destruct (String.eqb (emoji firstCard) (emoji card)); reflexivity.
      * intros _. eexists. split; [apply in_or_app; right; left; reflexivity|].
        destruct (String.eqb (emoji firstCard) (emoji card)); reflexivity.
  - unfold step. cbv zeta. destruct (gameStarted (ui w)); [|exact IH].
    destruct (rerender_selection w (resetGame shuffle (ui w)) true (timeouts w))
      as (E1 & E2 & E3).
    apply (settled_of_cleared _ (timeouts w)); rewrite ?E1, ?E2, ?E3; auto.
  - unfold step. cbv zeta. destruct (gameStarted (ui w)); [|exact IH].
    destruct (rerender_selection w (setGameStarted false (ui w)) false (timeouts w))
      as (E1 & E2 & E3).
    apply (settled_of_same w); auto.
  - unfold step. cbv zeta. destruct (interval w); [|exact IH].
    destruct (rerender_selection w (setStats incTimeElapsed (ui w)) false
                (timeouts w)) as (E1 & E2 & E3).
    apply (settled_of_same w); auto.
  - unfold step. cbv zeta.
    destruct (nth_error (timeouts w) k) as [t|]; [|exact IH].
    destruct (rerender_selection w (runTimeout t (ui w)) true
                (removeAt k (timeouts w))) as (E1 & E2 & E3).
    apply (settled_of_cleared _ (timeouts w)); rewrite ?E1, ?E2, ?E3; auto.
    + unfold runTimeout. destruct (kind t); reflexivity.
    + unfold runTimeout. destruct (kind t); reflexivity.
    + intros t'. apply In_removeAt.
Qed.

End Selection.

(** X5: in every reachable world at most two ids are selected and none
    twice, each selected id is the position of a card lying face up, and
    the grid is disabled ([isClickable] false) exactly while two are
    selected. *)
Theorem X5_selection_bounded (w : World) :
  reachable w ->
  NoDup (flippedCards (ui w)) /\
  length (flippedCards (ui w)) <= 2 /\
  isClickable (ui w) = negb (length (flippedCards (ui w)) =? 2) /\
  forall a, In a (flippedCards (ui w)) ->
    exists card, nth_error (cards (ui w)) a = Some card /\ isFlipped card = true.
Proof.
  intro Hr. destruct (reachable_settled w Hr) as ((Hnd & Hle & Hlock) & _).
  repeat split; try assumption.
  exact (inv_selection w (reachable_Inv w Hr)).
Qed.

Lemma X5_selection_bounded_witness :
  let w := run initialWorld [ClickStartGame swapFirstTwo; ClickCard 3; ClickCard 5] in
  reachable w /\
  flippedCards (ui w) = [3; 5] /\
  isClickable (ui w) = negb (length (flippedCards (ui w)) =? 2).
Proof.
  assert (Hr : reachable (run initialWorld
                  [ClickStartGame swapFirstTwo; ClickCard 3; ClickCard 5]))
    by (apply reachable_run, reachable_initial).
  split; [exact Hr|]. split; [reflexivity|].
  exact (proj1 (proj2 (proj2 (X5_selection_bounded _ Hr)))).
Defined.

(** X6: every commit pending in a reachable world captured two different
    ids, and it is either a match commit registered for 600 ms or a
    mismatch commit registered for 1200 ms. *)
Theorem X6_pending_commits (w : World) (t : Timeout) :
  reachable w ->
  In t (timeouts w) ->
  (exists a b, captured t = [a; b] /\ a <> b) /\
  ((kind t = MatchFound /\ delay t = 600) \/
   (kind t = NoMatch /\ delay t = 1200)).
Proof.
  intros Hr Hin. split.
  - exact (inv_captured w (reachable_Inv w Hr) t Hin).
  - destruct (reachable_settled w Hr) as (_ & Hts & _).
    pose proof (Hts t Hin) as Hd.
    destruct (kind t); [left | right]; split; auto.
Qed.

Lemma X6_pending_commits_witness :
  let w := run initialWorld [ClickStartGame swapFirstTwo; ClickCard 3; ClickCard 5] in
  reachable w /\
  In (mkTimeout NoMatch [3; 5] 1200) (timeouts w) /\
  ((kind (mkTimeout NoMatch [3; 5] 1200) = MatchFound /\
    delay (mkTimeout NoMatch [3; 5] 1200) = 600) \/
   (kind (mkTimeout NoMatch [3; 5] 1200) = NoMatch /\
    delay (mkTimeout NoMatch [3; 5] 1200) = 1200)).
Proof.
  assert (Hr : reachable (run initialWorld
                  [ClickStartGame swapFirstTwo; ClickCard 3; ClickCard 5]))
    by (apply reachable_run, reachable_initial).
  assert (Hin : In (mkTimeout NoMatch [3; 5] 1200)
                   (timeouts (run initialWorld
                      [ClickStartGame swapFirstTwo; ClickCard 3; ClickCard 5])))
    by (left; reflexivity).
  split; [exact Hr|]. split; [exact Hin|].
  exact (proj2 (X6_pending_commits _ _ Hr Hin)).
Defined.

(** X7: a reachable world is never locked for good.  While the grid is
    disabled, the commit that captured the two selected ids is pending;
    and the firing of any pending commit empties the selection and enables
    the grid again. *)
Theorem X7_grid_unlocks (w : World) :
  reachable w ->
  isClickable (ui w) = false ->
  (exists k t, nth_error (timeouts w) k = Some t /\
               captured t = flippedCards (ui w)) /\
  (forall k t, nth_error (timeouts w) k = Some t ->
     isClickable (ui (step w (TimeoutFires k))) = true /\
     flippedCards (ui (step w (TimeoutFires k))) = []).
Proof.
  intros Hr Hlocked.
  destruct (reachable_settled w Hr) as ((_ & _ & Hlock) & _ & Hwait).
  split.
  - rewrite Hlocked in Hlock.
    destruct (length (flippedCards (ui w)) =? 2) eqn:Htwo; [|discriminate].
    apply Nat.eqb_eq in Htwo.
    destruct (Hwait Htwo) as (t & Hin & Hcap).
    destruct (In_nth_error _ _ Hin) as (k & Hk).
    exists k, t. split; assumption.
  - intros k t Hk. unfold step. cbv zeta. rewrite Hk.
    destruct (rerender_selection w (runTimeout t (ui w)) true
                (removeAt k (timeouts w))) as (-> & -> & _).
    unfold runTimeout. destruct (kind t); split; reflexivity.
Qed.

Lemma X7_grid_unlocks_witness :
  let w := run initialWorld [ClickStartGame swapFirstTwo; ClickCard 3; ClickCard 5] in
  reachable w /\
  isClickable (ui w) = false /\
  isClickable (ui (step w (TimeoutFires 0))) = true.
Proof.
  assert (Hr : reachable (run initialWorld
                  [ClickStartGame swapFirstTwo; ClickCard 3; ClickCard 5]))
    by (apply reachable_run, reachable_initial).
  split; [exact Hr|]. split; [reflexivity|].
  exact (proj1 (proj2 (X7_grid_unlocks _ Hr eq_refl) 0
                  (mkTimeout NoMatch [3; 5] 1200) eq_refl)).
Defined.

(** X8: in a reachable world a click on any card of the grid never throws:
    whenever [handleCardClick] looks the two selected cards up by id, it
    finds them. *)
Theorem X8_click_never_throws (w : World) (index : nat) (card : Card) :
  reachable w ->
  nth_error (cards (ui w)) index = Some card ->
  forall s', GameCard_handleClick (ui w) card <> Some (Threw s').
Proof.
  intros Hr Hnth s'. pose proof (reachable_Inv w Hr) as HI.
  unfold GameCard_handleClick.
  destruct (isClickable (ui w) && negb (isFlipped card) && negb (isMatched card));
    [|discriminate].
  rewrite (ids_nth _ _ _ (inv_ids w HI) Hnth). intro H. injection H as H.
  exact (handleCardClick_returns (ui w) index card (inv_ids w HI)
           (inv_selection w HI) Hnth s' H).
Qed.

Lemma X8_click_never_throws_witness :
  let w := run initialWorld [ClickStartGame swapFirstTwo; ClickCard 3] in
  reachable w /\
  nth_error (cards (ui w)) 5 = Some (mkCard 5 "🎭" false false) /\
  GameCard_handleClick (ui w) (mkCard 5 "🎭" false false)
  <> Some (Threw (ui w)).
Proof.
  assert (Hr : reachable (run initialWorld
                  [ClickStartGame swapFirstTwo; ClickCard 3]))
    by (apply reachable_run, reachable_initial).
  split; [exact Hr|]. split; [reflexivity|].
  exact (X8_click_never_throws _ 5 (mkCard 5 "🎭" false false) Hr eq_refl _).
Defined.

(** ** What no event but a deal can do *)

Section Session.

Lemma step_click_cards (w : World) (index : nat) :
  step w (ClickCard index) = w \/
  exists cardId s' ts,
    step w (ClickCard index) = rerender w s' true ts /\
    cards s' = map (fun c => if id c =? cardId then withFlipped true c else c)
                 (cards (ui w)) /\
    matches (stats s') = matches (stats (ui w)) /\
    difficulty s' = difficulty (ui w).
Proof.
  unfold step. cbv zeta.
  destruct (gameStarted (ui w)); [|left; reflexivity].
  destruct (nth_error (cards (ui w)) index) as [card|]; [|left; reflexivity].
  unfold GameCard_handleClick.
  destruct (isClickable (ui w) && negb (isFlipped card) && negb (isMatched card));
    [|left; reflexivity].
  destruct (Nat.eq_dec (length (flippedCards (ui w))) 2) as [Htwo | Htwo].
  { rewrite handleCardClick_early by exact Htwo. left. reflexivity. }
  destruct (handleCardClick_shape (ui w) (id card) Htwo)
    as (s' & o & Hout & Hcards & _ & Hdiff & _ & _ & _ & Hmatches & _).
  right. exists (id card), s'.
  destruct Hout as [Hout | [Hout _]]; rewrite Hout;
    [destruct o as [t|]|]; eexists; repeat split; assumption.
Qed.

Lemma map_same (l : list Card) : l = map (fun c => c) l.
Proof. symmetry. apply map_id. Qed.

Lemma nondeal_deck (w : World) (e : Event) :
  deals e = false ->
  exists f,
    cards (ui (step w e)) = map f (cards (ui w)) /\
    forall c, id (f c) = id c /\ emoji (f c) = emoji c /\
              (isMatched c = true -> isMatched (f c) = true).
Proof.
  intro He.
  destruct e as [shuffle | d | index | shuffle | | | k]; try discriminate.
  - exists (fun c => c). split; [|repeat split; trivial].
    unfold step. cbv zeta.
    destruct (gameStarted (ui w)); [|rewrite rerender_ui]; apply map_same.
  - destruct (step_click_cards w index)
      as [-> | (cardId & s' & ts & -> & Hcards & _)].
    + exists (fun c => c). split; [apply map_same | repeat split; trivial].
    + exists (fun c => if id c =? cardId then withFlipped true c else c).
      split.
      * rewrite rerender_ui, (proj1 (completionEffect_frame s')). exact Hcards.
      * intro c. destruct (id c =? cardId); repeat split; trivial.
  - exists (fun c => c). split; [|repeat split; trivial].
    unfold step. cbv zeta.
    destruct (gameStarted (ui w)); [rewrite rerender_ui|]; apply map_same.
  - exists (fun c => c). split; [|repeat split; trivial].
    unfold step. cbv zeta.
    destruct (interval w); [rewrite rerender_ui|]; apply map_same.
  - unfold step. cbv zeta. destruct (nth_error (timeouts w) k) as [t|].
    + rewrite rerender_ui, (proj1 (completionEffect_frame _)).
      unfold runTimeout. destruct (kind t); eexists; (split; [reflexivity|]);
        intro c; cbv beta; destruct (includes (captured t) (id c));
        repeat split; trivial.
    + exists (fun c => c). split; [apply map_same | repeat split; trivial].
Qed.

End Session.

(** X9: between two deals the deck is never reordered or relabelled and a
    matched card stays matched.  After any event other than Start Game and
    Reset Game the deck has the same length, and each position holds a card
    with the same id and the same symbol, matched if it was matched. *)
Theorem X9_deck_stable (w : World) (e : Event) :
  deals e = false ->
  length (cards (ui (step w e))) = length (cards (ui w)) /\
  forall i card,
    nth_error (cards (ui w)) i = Some card ->
    exists card',
      nth_error (cards (ui (step w e))) i = Some card' /\
      id card' = id card /\
      emoji card' = emoji card /\
      (isMatched card = true -> isMatched card' = true).
Proof.
  intro He. destruct (nondeal_deck w e He) as (f & -> & Hf).
  split; [apply length_map|].
  intros i card Hnth. exists (f card).
  split; [exact (nth_error_map_at f _ _ _ Hnth) | apply Hf].
Qed.

Lemma X9_deck_stable_witness :
  let w := step initialWorld (ClickStartGame swapFirstTwo) in
  deals (ClickCard 2) = false /\
  length (cards (ui (step w (ClickCard 2)))) = length (cards (ui w)).
Proof.
  split; [reflexivity|].
  exact (proj1 (X9_deck_stable (step initialWorld (ClickStartGame swapFirstTwo))
                  (ClickCard 2) eq_refl)).
Defined.

(** X10: the match counter moves only when a commit fires or a deck is
    dealt.  A match commit adds exactly 1; a mismatch commit, a click, a
    tick of the interval and the buttons of the start screen add nothing. *)
Theorem X10_matches_counter (w : World) (e : Event) :
  deals e = false ->
  matches (stats (ui (step w e)))
  = matches (stats (ui w))
    + match e with
      | TimeoutFires k =>
          match nth_error (timeouts w) k with
          | Some t => match kind t with MatchFound => 1 | NoMatch => 0 end
          | None => 0
          end
      | _ => 0
      end.
Proof.
  intro He.
  destruct e as [shuffle | d | index | shuffle | | | k]; try discriminate;
    rewrite ?Nat.add_0_r.
  - unfold step. cbv zeta.
    destruct (gameStarted (ui w)); [|rewrite rerender_ui]; reflexivity.
  - destruct (step_click_cards w index)
      as [-> | (cardId & s' & ts & -> & _ & Hmatches & _)]; [reflexivity|].
    rewrite rerender_ui.
    destruct (completionEffect_frame s') as (_ & _ & _ & _ & _ & _ & -> & _).
    exact Hmatches.
  - unfold step. cbv zeta.
    destruct (gameStarted (ui w)); [rewrite rerender_ui|]; reflexivity.
  - unfold step. cbv zeta.
    destruct (interval w); [rewrite rerender_ui|]; reflexivity.
  - unfold step. cbv zeta. destruct (nth_error (timeouts w) k) as [t|];
      [|rewrite Nat.add_0_r; reflexivity].
    rewrite rerender_ui.
    destruct (completionEffect_frame (runTimeout t (ui w)))
      as (_ & _ & _ & _ & _ & _ & -> & _).
    unfold runTimeout. destruct (kind t); cbn; lia.
Qed.

Lemma X10_matches_counter_witness :
  let w := run initialWorld [ClickStartGame (fun l => l); ClickCard 0; ClickCard 8] in
  deals (TimeoutFires 0) = false /\
  matches (stats (ui (step w (TimeoutFires 0)))) = matches (stats (ui w)) + 1.
Proof.
  split; [reflexivity|].
  exact (X10_matches_counter
           (run initialWorld [ClickStartGame (fun l => l); ClickCard 0; ClickCard 8])
           (TimeoutFires 0) eq_refl).
Defined.

(** ** One selection cycle *)

Section Cycle.

Lemma removeAt_last (A : Type) (l : list A) (x : A) :
  nth_error (l ++ [x]) (length l) = Some x /\
  removeAt (length l) (l ++ [x]) = l.
Proof.
  split.
  - rewrite nth_error_app2, Nat.sub_diag by lia. reflexivity.
  - unfold removeAt. rewrite firstn_app, Nat.sub_diag, firstn_all.
    rewrite skipn_all2 by (rewrite length_app; simpl; lia).
    cbn [firstn]. rewrite !app_nil_r. reflexivity.
Qed.

Lemma faceUp_at (l : list Card) (index i : nat) (card : Card) :
  map id l = seq 0 (length l) ->
  nth_error l i = Some card ->
  nth_error (map (fun c => if id c =? index then withFlipped true c else c) l) i
  = Some (if i =? index then withFlipped true card else card).
Proof.
  intros Hids Hnth.
  rewrite (nth_error_map_at
             (fun c => if id c =? index then withFlipped true c else c)
             _ _ _ Hnth).
  pose proof (map_nth_error id _ _ Hnth) as Hid.
  rewrite Hids, nth_error_seq in Hid.
  destruct (i <? length l); [|discriminate]. injection Hid as Hid.
  cbn [Nat.add] in Hid. rewrite <- Hid. reflexivity.
Qed.

Lemma commit_at (g : Card -> Card) (l : list Card) (a b i : nat) (card : Card) :
  map id l = seq 0 (length l) ->
  nth_error l i = Some card ->
  nth_error (map (fun c => if includes [a; b] (id c) then g c else c) l) i
  = Some (if (i =? a) || (i =? b) then g card else card).
Proof.
  intros Hids Hnth.
  rewrite (nth_error_map_at
             (fun c => if includes [a; b] (id c) then g c else c) _ _ _ Hnth).
  pose proof (map_nth_error id _ _ Hnth) as Hid.
  rewrite Hids, nth_error_seq in Hid.
  destruct (i <? length l); [|discriminate]. injection Hid as Hid.
  cbn [Nat.add] in Hid. rewrite <- Hid.
  unfold includes. cbn [existsb]. rewrite orb_false_r. reflexivity.
Qed.

Variable w : World.
Variables i j : nat.
Variables ci cj : Card.
Hypothesis Hr : reachable w.
Hypothesis shown : gameStarted (ui w) = true.
Hypothesis enabled : isClickable (ui w) = true.
Hypothesis idle : flippedCards (ui w) = [].
Hypothesis at_i : nth_error (cards (ui w)) i = Some ci.
Hypothesis at_j : nth_error (cards (ui w)) j = Some cj.
Hypothesis distinct : i <> j.
Hypothesis down_i : isFlipped ci = false.
Hypothesis free_i : isMatched ci = false.
Hypothesis down_j : isFlipped cj = false.
Hypothesis free_j : isMatched cj = false.

(** The world once both cards are selected. *)
Lemma both_selected :
  run w [ClickCard i; ClickCard j]
  = mkWorld
      (mkState
         (map (fun c => if id c =? j then withFlipped true c else c)
            (map (fun c => if id c =? i then withFlipped true c else c)
               (cards (ui w))))
         [i; j]
         (incMoves (stats (ui w)))
         (difficulty (ui w)) true false)
      (timeouts w
       ++ [if String.eqb (emoji ci) (emoji cj)
           then mkTimeout MatchFound [i; j] 600
           else mkTimeout NoMatch [i; j] 1200])
      (interval w).
Proof.
  pose proof (inv_ids w (reachable_Inv w Hr)) as Hids.
  unfold run. cbn [fold_left].
  pose proof (first_click_world w i ci Hids shown at_i enabled down_i free_i idle)
    as E1.
  assert (Hr1 : reachable (step w (ClickCard i))) by (apply reachable_step, Hr).
  pose proof (inv_ids _ (reachable_Inv _ Hr1)) as Hids1.
  assert (at_j1 : nth_error (cards (ui (step w (ClickCard i)))) j = Some cj).
  { rewrite E1. cbn [ui cards setCards setFlippedCards].
    rewrite (faceUp_at _ i j cj Hids at_j).
    replace (j =? i) with false by (symmetry; apply Nat.eqb_neq; lia).
    reflexivity. }
  assert (at_i1 : nth_error (cards (ui (step w (ClickCard i)))) i
                  = Some (withFlipped true ci)).
  { rewrite E1. cbn [ui cards setCards setFlippedCards].
    rewrite (faceUp_at _ i i ci Hids at_i), Nat.eqb_refl. reflexivity. }
  rewrite (second_click_world (step w (ClickCard i)) j cj Hids1
             (eq_trans (f_equal (fun v => gameStarted (ui v)) E1) shown)
             at_j1
             (eq_trans (f_equal (fun v => isClickable (ui v)) E1) enabled)
             down_j free_j i (withFlipped true ci)
             (f_equal (fun v => flippedCards (ui v)) E1) at_i1).
  rewrite E1. cbn [ui timeouts interval emoji withFlipped].
  unfold setStats, setIsClickable, setFlippedCards, setCards.
  cbn [cards flippedCards stats difficulty gameStarted isClickable].
  rewrite shown. reflexivity.
Qed.

(** Turning both cards face up and then face down again gives the deck
    back. *)
Lemma mismatch_restores :
  map (fun c => if includes [i; j] (id c) then withFlipped false c else c)
    (map (fun c => if id c =? j then withFlipped true c else c)
       (map (fun c => if id c =? i then withFlipped true c else c)
          (cards (ui w))))
  = cards (ui w).
Proof.
  pose proof (inv_ids w (reachable_Inv w Hr)) as Hids.
  apply nth_error_ext. intro n. rewrite !nth_error_map.
  destruct (nth_error (cards (ui w)) n) as [c|] eqn:Hnth; [|reflexivity].
  cbn [option_map]. f_equal.
  pose proof (ids_nth _ _ _ Hids Hnth) as Hid.
  unfold includes. cbn [existsb].
  destruct (Nat.eq_dec n i) as [-> | Hi].
  - rewrite at_i in Hnth. injection Hnth as <-.
    rewrite Hid, Nat.eqb_refl. cbn [id withFlipped].
    replace (id ci =? j) with false
      by (symmetry; apply Nat.eqb_neq; rewrite Hid; exact distinct).
    cbn [id withFlipped]. rewrite Hid, Nat.eqb_refl. cbn [orb].
    destruct ci; cbn in *; subst; reflexivity.
  - replace (id c =? i) with false
      by (symmetry; apply Nat.eqb_neq; rewrite Hid; exact Hi).
    destruct (Nat.eq_dec n j) as [-> | Hj].
    + rewrite at_j in Hnth. injection Hnth as <-.
      rewrite Hid, Nat.eqb_refl. cbn [id withFlipped].
      rewrite Hid, Nat.eqb_refl, orb_true_r.
      destruct cj; cbn in *; subst; reflexivity.
    + replace (id c =? j) with false
        by (symmetry; apply Nat.eqb_neq; rewrite Hid; exact Hj).
      rewrite Hid.
      replace (n =? i) with false by (symmetry; apply Nat.eqb_neq; exact Hi).
      replace (n =? j) with false by (symmetry; apply Nat.eqb_neq; exact Hj).
      reflexivity.
Qed.

(** Turning both cards face up and then marking them matched. *)
Lemma match_marks (n : nat) (c : Card) :
  nth_error (cards (ui w)) n = Some c ->
  nth_error
    (map (fun c => if includes [i; j] (id c) then withMatched true c else c)
       (map (fun c => if id c =? j then withFlipped true c else c)
          (map (fun c => if id c =? i then withFlipped true c else c)
             (cards (ui w))))) n
  = Some (if (n =? i) || (n =? j)
          then mkCard (id c) (emoji c) true true else c).
Proof.
  intro Hnth.
  pose proof (ids_nth _ _ _ (inv_ids w (reachable_Inv w Hr)) Hnth) as Hid.
  rewrite !nth_error_map, Hnth. cbn [option_map]. f_equal.
  rewrite <- Hid. unfold includes. cbn [existsb]. rewrite orb_false_r.
  destruct (id c =? i) eqn:Ei; cbn [id withFlipped];
    destruct (id c =? j) eqn:Ej; cbn [id withFlipped];
    rewrite ?Ei, ?Ej; reflexivity.
Qed.

End Cycle.

(** X11: the second selection of a pair registers one commit and its kind
    is decided by the two symbols alone: a match commit (600 ms) when the
    card selected first and the card clicked now carry the same symbol, a
    mismatch commit (1200 ms) otherwise; either captures the two ids in
    the order of selection. *)
Theorem X11_commit_by_symbol
    (w : World) (index : nat) (card : Card) (a : nat) (firstCard : Card) :
  reachable w ->
  gameStarted (ui w) = true ->
  nth_error (cards (ui w)) index = Some card ->
  isClickable (ui w) = true ->
  isFlipped card = false ->
  isMatched card = false ->
  flippedCards (ui w) = [a] ->
  nth_error (cards (ui w)) a = Some firstCard ->
  (emoji firstCard = emoji card ->
   timeouts (step w (ClickCard index))
   = timeouts w ++ [mkTimeout MatchFound [a; index] 600]) /\
  (emoji firstCard <> emoji card ->
   timeouts (step w (ClickCard index))
   = timeouts w ++ [mkTimeout NoMatch [a; index] 1200]).
Proof.
  intros Hr Hon Hnth Hclick Hdown Hfree Hsel Hfirst.
  rewrite (second_click_world w index card (inv_ids w (reachable_Inv w Hr))
             Hon Hnth Hclick Hdown Hfree a firstCard Hsel Hfirst).
  cbn [timeouts].
  destruct (String.eqb_spec (emoji firstCard) (emoji card)) as [Heq | Hne];
    split; intro H; try reflexivity; contradiction.
Qed.

Lemma X11_commit_by_symbol_witness :
  let w := run initialWorld [ClickStartGame (fun l => l); ClickCard 2] in
  reachable w /\
  timeouts (step w (ClickCard 10)) = timeouts w ++ [mkTimeout MatchFound [2; 10] 600] /\
  timeouts (step w (ClickCard 11)) = timeouts w ++ [mkTimeout NoMatch [2; 11] 1200].
Proof.
  assert (Hr : reachable (run initialWorld
                            [ClickStartGame (fun l => l); ClickCard 2]))
    by (apply reachable_run, reachable_initial).
  split; [exact Hr|]. split.
  - exact (proj1 (X11_commit_by_symbol _ 10 (mkCard 10 "🎲" false false)
                    2 (mkCard 2 "🎲" true false)
                    Hr eq_refl eq_refl eq_refl eq_refl eq_refl eq_refl eq_refl)
             eq_refl).
  - refine (proj2 (X11_commit_by_symbol _ 11 (mkCard 11 "🎪" false false)
                     2 (mkCard 2 "🎲" true false)
                     Hr eq_refl eq_refl eq_refl eq_refl eq_refl eq_refl eq_refl)
              _).
    cbn [emoji]. intro H. discriminate H.
Defined.

(** X12: a click that [GameCard] lets through in a reachable world turns
    the clicked card face up and changes no other card and no other field
    of that card; the clicked id is appended to the selection, and the
    match counter, the elapsed time and the completion flag stay as they
    are. *)
Theorem X12_click_turns_one_card (w : World) (index : nat) (card : Card) :
  reachable w ->
  gameStarted (ui w) = true ->
  nth_error (cards (ui w)) index = Some card ->
  isClickable (ui w) = true ->
  isFlipped card = false ->
  isMatched card = false ->
  (forall i c,
     nth_error (cards (ui w)) i = Some c ->
     nth_error (cards (ui (step w (ClickCard index)))) i
     = Some (if i =? index
             then mkCard (id c) (emoji c) true (isMatched c)
             else c)) /\
  flippedCards (ui (step w (ClickCard index))) = flippedCards (ui w) ++ [index] /\
  matches (stats (ui (step w (ClickCard index)))) = matches (stats (ui w)) /\
  timeElapsed (stats (ui (step w (ClickCard index))))
  = timeElapsed (stats (ui w)) /\
  isGameComplete (stats (ui (step w (ClickCard index))))
  = isGameComplete (stats (ui w)).
Proof.
  intros Hr Hon Hnth Hclick Hdown Hfree.
  pose proof (reachable_Inv w Hr) as HI. pose proof (inv_ids w HI) as Hids.
  destruct (reachable_settled w Hr) as ((_ & Hle & Hlock) & _).
  rewrite Hclick in Hlock.
  destruct (flippedCards (ui w)) as [|a [|b r]] eqn:Esel;
    [| |destruct r; [discriminate Hlock | simpl in Hle; lia]].
  - rewrite (first_click_world w index card Hids Hon Hnth Hclick Hdown Hfree Esel).
    cbn [ui cards flippedCards stats setCards setFlippedCards].
    split; [|repeat split].
    intros i c Hc. apply (faceUp_at _ index i c Hids Hc).
  - destruct (inv_selection w HI a) as (firstCard & Hfirst & _);
      [rewrite Esel; left; reflexivity|].
    rewrite (second_click_world w index card Hids Hon Hnth Hclick Hdown Hfree
               a firstCard Esel Hfirst).
    cbn [ui cards flippedCards stats setCards setFlippedCards setIsClickable
         setStats].
    split; [|repeat split].
    intros i c Hc. apply (faceUp_at _ index i c Hids Hc).
Qed.

Lemma X12_click_turns_one_card_witness :
  let w := run initialWorld [ClickStartGame (fun l => l); ClickCard 2] in
  reachable w /\
  nth_error (cards (ui (step w (ClickCard 11)))) 11
  = Some (mkCard 11 "🎪" true false) /\
  nth_error (cards (ui (step w (ClickCard 11)))) 12
  = Some (mkCard 12 "🎨" false false).
Proof.
  assert (Hr : reachable (run initialWorld
                            [ClickStartGame (fun l => l); ClickCard 2]))
    by (apply reachable_run, reachable_initial).
  pose proof (proj1 (X12_click_turns_one_card _ 11 (mkCard 11 "🎪" false false)
                       Hr eq_refl eq_refl eq_refl eq_refl eq_refl)) as H.
  split; [exact Hr|]. split.
  - exact (H 11 (mkCard 11 "🎪" false false) eq_refl).
  - exact (H 12 (mkCard 12 "🎨" false false) eq_refl).
Defined.

(** X13: when a pending match commit that captured the ids [a] and [b]
    fires in a reachable world, the cards at positions [a] and [b] become
    matched and nothing else about any card changes; the match counter
    grows by 1, the move counter and the elapsed time stay, the selection
    is emptied, the grid is enabled and only that commit leaves the
    pending list. *)
Theorem X13_match_commit (w : World) (k : nat) (t : Timeout) (a b : nat) :
  reachable w ->
  nth_error (timeouts w) k = Some t ->
  kind t = MatchFound ->
  captured t = [a; b] ->
  a <> b /\
  (forall i card,
     nth_error (cards (ui w)) i = Some card ->
     nth_error (cards (ui (step w (TimeoutFires k)))) i
     = Some (if (i =? a) || (i =? b)
             then mkCard (id card) (emoji card) (isFlipped card) true
             else card)) /\
  matches (stats (ui (step w (TimeoutFires k)))) = matches (stats (ui w)) + 1 /\
  moves (stats (ui (step w (TimeoutFires k)))) = moves (stats (ui w)) /\
  timeElapsed (stats (ui (step w (TimeoutFires k))))
  = timeElapsed (stats (ui w)) /\
  flippedCards (ui (step w (TimeoutFires k))) = [] /\
  isClickable (ui (step w (TimeoutFires k))) = true /\
  timeouts (step w (TimeoutFires k)) = removeAt k (timeouts w).
Proof.
  intros Hr Hk Hkind Hcap. pose proof (reachable_Inv w Hr) as HI.
  split.
  { destruct (inv_captured w HI t (nth_error_In _ _ Hk)) as (a' & b' & E & Hne).
    rewrite Hcap in E. injection E as -> ->. exact Hne. }
  unfold step. cbv zeta. rewrite Hk, rerender_ui, rerender_timeouts.
  destruct (completionEffect_frame (runTimeout t (ui w)))
    as (-> & -> & _ & _ & -> & -> & -> & ->).
  unfold runTimeout. rewrite Hkind, Hcap.
  cbn [cards flippedCards stats isClickable setCards setFlippedCards
       setIsClickable setStats incMatches moves matches timeElapsed].
  split; [|repeat split].
  intros i card Hnth.
  exact (commit_at (withMatched true) _ a b i card (inv_ids w HI) Hnth).
Qed.

Lemma X13_match_commit_witness :
  let w := run initialWorld [ClickStartGame (fun l => l); ClickCard 2; ClickCard 10] in
  reachable w /\
  nth_error (timeouts w) 0 = Some (mkTimeout MatchFound [2; 10] 600) /\
  nth_error (cards (ui (step w (TimeoutFires 0)))) 10
  = Some (mkCard 10 "🎲" true true) /\
  matches (stats (ui (step w (TimeoutFires 0)))) = 0 + 1.
Proof.
  assert (Hr : reachable (run initialWorld
                  [ClickStartGame (fun l => l); ClickCard 2; ClickCard 10]))
    by (apply reachable_run, reachable_initial).
  pose proof (proj2 (X13_match_commit _ 0 (mkTimeout MatchFound [2; 10] 600) 2 10
                       Hr eq_refl eq_refl eq_refl)) as H.
  split; [exact Hr|]. split; [reflexivity|]. split.
  - exact (proj1 H 10 (mkCard 10 "🎲" true false) eq_refl).
  - exact (proj1 (proj2 H)).
Defined.

Lemma run_app (w : World) (es es' : list Event) :
  run w (es ++ es') = run (run w es) es'.
Proof. unfold run. apply fold_left_app. Qed.

(** Firings of the interval in a running, unfinished game. *)
Lemma ticks_world (k : nat) :
  forall cs sel m mt t d cl ts,
    run (mkWorld (mkState cs sel (mkGameStats m mt t false) d true cl) ts true)
        (repeat IntervalFires k)
    = mkWorld (mkState cs sel (mkGameStats m mt (t + k) false) d true cl) ts true.
Proof.
  induction k as [|k IH]; intros cs sel m mt t d cl ts.
  - cbn [repeat run fold_left]. rewrite Nat.add_0_r. reflexivity.
  - change (run (mkWorld (mkState cs sel (mkGameStats m mt t false) d true cl)
                   ts true)
                (repeat IntervalFires (S k)))
      with (run (mkWorld (mkState cs sel (mkGameStats m mt (t + 1) false) d true cl)
                   ts true)
                (repeat IntervalFires k)).
    rewrite IH. replace (t + 1 + k) with (t + S k) by lia. reflexivity.
Qed.

(** X14: a whole mismatch cycle gives the world back, one move and some
    seconds later.  From a reachable world with nothing selected and no
    commit pending, clicking two different face-down unmatched cards with
    different symbols and letting their commit fire, with any number of
    firings of the interval before, between and after the two clicks (in
    real time one or two of them fall into the 1200 ms delay), restores
    every card, the empty selection, the enabled grid, the empty list of
    pending commits and the interval; the move counter has grown by 1 and
    the elapsed time by the number of firings. *)
Theorem X14_mismatch_cycle_with_ticks
    (w : World) (i j : nat) (ci cj : Card) (a b c : nat) :
  reachable w ->
  gameStarted (ui w) = true ->
  isClickable (ui w) = true ->
  flippedCards (ui w) = [] ->
  timeouts w = [] ->
  nth_error (cards (ui w)) i = Some ci ->
  nth_error (cards (ui w)) j = Some cj ->
  i <> j ->
  isFlipped ci = false -> isMatched ci = false ->
  isFlipped cj = false -> isMatched cj = false ->
  emoji ci <> emoji cj ->
  run w (repeat IntervalFires a ++ ClickCard i
         :: repeat IntervalFires b ++ ClickCard j
         :: repeat IntervalFires c ++ [TimeoutFires 0])
  = mkWorld
      (mkState (cards (ui w)) []
         (mkGameStats (moves (stats (ui w)) + 1) (matches (stats (ui w)))
            (timeElapsed (stats (ui w)) + (a + b + c))
            (isGameComplete (stats (ui w))))
         (difficulty (ui w)) true true)
      [] (interval w).
Proof.
  intros Hr Hon Hclick Hidle Hnone Hi Hj Hne Hdi Hfi Hdj Hfj Hsym.
  assert (Hflag : isGameComplete (stats (ui w)) = false).
  { rewrite (inv_completion w (reachable_Inv w Hr)).
    apply andb_false_iff. right. apply not_true_is_false. intro Hall.
    rewrite forallb_forall in Hall.
    rewrite (Hall ci (nth_error_In _ _ Hi)) in Hfi. discriminate. }
  assert (Hiv : interval w = true).
  { rewrite (inv_interval w (reachable_Inv w Hr)). unfold timerWanted.
    rewrite Hon, Hflag. reflexivity. }
  pose proof (inv_ids w (reachable_Inv w Hr)) as Hids.
  pose proof (mismatch_restores w i j ci cj Hr Hi Hj Hne Hdi Hfi Hdj Hfj) as Hback.
  clear Hr.
  destruct w as [[cs sel [m mt t f] d gs cl] ts iv].
  unfold idsArePositions in Hids.
  cbn [ui timeouts interval cards flippedCards stats difficulty gameStarted
       isClickable moves matches timeElapsed isGameComplete] in *.
  subst gs cl sel ts f iv.
  rewrite run_app, ticks_world.
  change (run ?W (ClickCard i :: ?rest)) with (run (step W (ClickCard i)) rest).
  rewrite (first_click_world
             (mkWorld (mkState cs [] (mkGameStats m mt (t + a) false) d true true)
                [] true)
             i ci Hids eq_refl Hi eq_refl Hdi Hfi eq_refl).
  unfold setFlippedCards, setCards.
  cbn [ui timeouts interval cards flippedCards stats difficulty gameStarted
       isClickable].
  rewrite run_app, ticks_world.
  change (run ?W (ClickCard j :: ?rest)) with (run (step W (ClickCard j)) rest).
  assert (Hids1 : idsArePositions
            (mkState (map (fun c => if id c =? i then withFlipped true c else c) cs)
               [i] (mkGameStats m mt (t + a + b) false) d true true)).
  { unfold idsArePositions. cbn [cards].
    rewrite length_map, map_keeps_ids; [exact Hids|].
    intro c0. destruct (id c0 =? i); reflexivity. }
  assert (Hj1 : nth_error
                  (map (fun c => if id c =? i then withFlipped true c else c) cs) j
                = Some cj).
  { rewrite (faceUp_at cs i j cj Hids Hj).
    replace (j =? i) with false by (symmetry; apply Nat.eqb_neq; lia).
    reflexivity. }
  assert (Hi1 : nth_error
                  (map (fun c => if id c =? i then withFlipped true c else c) cs) i
                = Some (withFlipped true ci)).
  { rewrite (faceUp_at cs i i ci Hids Hi), Nat.eqb_refl. reflexivity. }
  rewrite (second_click_world
             (mkWorld
                (mkState
                   (map (fun c => if id c =? i then withFlipped true c else c) cs)
                   [i] (mkGameStats m mt (t + a + b) false) d true true)
                [] true)
             j cj Hids1 eq_refl Hj1 eq_refl Hdj Hfj
             i (withFlipped true ci) eq_refl Hi1).
  cbn [emoji withFlipped].
  replace (String.eqb (emoji ci) (emoji cj)) with false
    by (symmetry; apply String.eqb_neq; exact Hsym).
  unfold setStats, setIsClickable, setFlippedCards, setCards, incMoves.
  cbn [ui timeouts interval cards flippedCards stats difficulty gameStarted
       isClickable moves matches timeElapsed isGameComplete app].
  rewrite run_app, ticks_world.
  cbn [run fold_left]. unfold step. cbv zeta.
  cbn [timeouts ui nth_error]. unfold removeAt. cbn [firstn skipn app].
  unfold runTimeout. cbn [kind captured].
  unfold setIsClickable, setFlippedCards, setCards.
  cbn [cards flippedCards stats difficulty gameStarted isClickable].
  rewrite Hback.
  rewrite rerender_plain; try reflexivity.
  - cbn [interval]. replace (t + a + b + c) with (t + (a + b + c)) by lia.
    reflexivity.
  - apply (completionEffect_unmatched _ j cj); [exact Hj | exact Hfj].
Qed.

Lemma X14_mismatch_cycle_with_ticks_witness :
  let w := run initialWorld [ClickStartGame swapFirstTwo; IntervalFires] in
  reachable w /\
  timeouts w = [] /\
  stats (ui w) = mkGameStats 0 0 1 false /\
  run w [ClickCard 4; ClickCard 9; IntervalFires; TimeoutFires 0]
  = mkWorld
      (mkState (cards (ui w)) [] (mkGameStats 1 0 2 false) easy true true)
      [] true.
Proof.
  assert (Hr : reachable (run initialWorld
                            [ClickStartGame swapFirstTwo; IntervalFires]))
    by (apply reachable_run, reachable_initial).
  split; [exact Hr|]. split; [reflexivity|]. split; [reflexivity|].
  refine (X14_mismatch_cycle_with_ticks _ 4 9 (mkCard 4 "🎨" false false)
            (mkCard 9 "🎯" false false) 0 0 1
            Hr eq_refl eq_refl eq_refl eq_refl eq_refl eq_refl _ eq_refl eq_refl
            eq_refl eq_refl _).
  - intro H. discriminate H.
  - cbn [emoji]. intro H. discriminate H.
Defined.

(** X15: a whole match cycle.  From a reachable world with nothing
    selected, clicking two different face-down unmatched cards with the
    same symbol and letting their commit fire leaves exactly those two
    cards face up and matched and every other card as it was; moves and
    matches have both grown by 1, the selection is empty, the grid enabled,
    the pending commits as before, and the completion flag tells whether
    the whole deck is now matched. *)
Theorem X15_match_cycle (w : World) (i j : nat) (ci cj : Card) :
  reachable w ->
  gameStarted (ui w) = true ->
  isClickable (ui w) = true ->
  flippedCards (ui w) = [] ->
  nth_error (cards (ui w)) i = Some ci ->
  nth_error (cards (ui w)) j = Some cj ->
  i <> j ->
  isFlipped ci = false -> isMatched ci = false ->
  isFlipped cj = false -> isMatched cj = false ->
  emoji ci = emoji cj ->
  let w' := run w [ClickCard i; ClickCard j; TimeoutFires (length (timeouts w))] in
  (forall n c,
     nth_error (cards (ui w)) n = Some c ->
     nth_error (cards (ui w')) n
     = Some (if (n =? i) || (n =? j)
             then mkCard (id c) (emoji c) true true else c)) /\
  moves (stats (ui w')) = moves (stats (ui w)) + 1 /\
  matches (stats (ui w')) = matches (stats (ui w)) + 1 /\
  timeElapsed (stats (ui w')) = timeElapsed (stats (ui w)) /\
  flippedCards (ui w') = [] /\
  isClickable (ui w') = true /\
  timeouts w' = timeouts w /\
  isGameComplete (stats (ui w')) = forallb isMatched (cards (ui w')).
Proof.
  intros Hr Hon Hclick Hidle Hi Hj Hne Hdi Hfi Hdj Hfj Hsym. cbv zeta.
  assert (Hflag : isGameComplete (stats (ui w)) = false).
  { rewrite (inv_completion w (reachable_Inv w Hr)).
    apply andb_false_iff. right. apply not_true_is_false. intro Hall.
    rewrite forallb_forall in Hall.
    rewrite (Hall ci (nth_error_In _ _ Hi)) in Hfi. discriminate. }
  change (run w [ClickCard i; ClickCard j; TimeoutFires (length (timeouts w))])
    with (step (run w [ClickCard i; ClickCard j])
               (TimeoutFires (length (timeouts w)))).
  rewrite (both_selected w i j ci cj Hr Hon Hclick Hidle Hi Hj Hne Hdi Hfi Hdj Hfj).
  replace (String.eqb (emoji ci) (emoji cj)) with true
    by (symmetry; apply String.eqb_eq; exact Hsym).
  unfold step. cbv zeta. cbn [timeouts ui].
  destruct (removeAt_last _ (timeouts w) (mkTimeout MatchFound [i; j] 600))
    as [-> ->].
  rewrite rerender_ui, rerender_timeouts.
  unfold runTimeout. cbn [kind captured].
  unfold completionEffect.
  cbn [cards flippedCards stats isClickable setCards setFlippedCards
       setIsClickable setStats].
  set (deck := map (fun c => if includes [i; j] (id c)
                             then withMatched true c else c)
                 (map (fun c => if id c =? j then withFlipped true c else c)
                    (map (fun c => if id c =? i then withFlipped true c else c)
                       (cards (ui w))))).
  assert (Hdeck : forall n c,
            nth_error (cards (ui w)) n = Some c ->
            nth_error deck n
            = Some (if (n =? i) || (n =? j)
                    then mkCard (id c) (emoji c) true true else c))
    by (intros n c Hc; exact (match_marks w i j Hr n c Hc)).
  assert (Hpos : (0 <? length deck) = true).
  { apply Nat.ltb_lt. subst deck. rewrite !length_map.
    assert (i < length (cards (ui w)))
      by (apply nth_error_Some; rewrite Hi; discriminate).
    lia. }
  rewrite Hpos. cbn [andb].
  destruct (forallb isMatched deck) eqn:Hall;
    cbn [cards flippedCards stats isClickable setCards setFlippedCards
         setIsClickable setStats completeGame incMatches incMoves moves
         matches timeElapsed isGameComplete];
    fold deck; rewrite Hall;
    (split; [exact Hdeck|]); do 6 (split; [reflexivity|]);
    [reflexivity | exact Hflag].
Qed.

Lemma X15_match_cycle_witness :
  let w := run initialWorld [ClickStartGame swapFirstTwo; IntervalFires] in
  let w' := run w [ClickCard 4; ClickCard 12; TimeoutFires 0] in
  reachable w /\
  nth_error (cards (ui w')) 12 = Some (mkCard 12 "🎨" true true) /\
  moves (stats (ui w')) = 0 + 1 /\
  matches (stats (ui w')) = 0 + 1.
Proof.
  assert (Hr : reachable (run initialWorld
                            [ClickStartGame swapFirstTwo; IntervalFires]))
    by (apply reachable_run, reachable_initial).
  assert (Hne : 4 <> 12) by (intro H; discriminate H).
  pose proof (X15_match_cycle _ 4 12 (mkCard 4 "🎨" false false)
                (mkCard 12 "🎨" false false)
                Hr eq_refl eq_refl eq_refl eq_refl eq_refl Hne eq_refl eq_refl
                eq_refl eq_refl eq_refl) as H.
  cbv zeta in H.
  split; [exact Hr|]. split; [|split].
  - exact (proj1 H 12 (mkCard 12 "🎨" false false) eq_refl).
  - exact (proj1 (proj2 H)).
  - exact (proj1 (proj2 (proj2 H))).
Defined.

(** ** A finished game, the interval, the difficulty, a reset *)

(** X16: once the completion flag is true in a reachable world, every card
    is matched and clicks on the grid do nothing at all, whatever card is
    clicked. *)
Theorem X16_complete_game_ignores_clicks (w : World) (index : nat) :
  reachable w ->
  isGameComplete (stats (ui w)) = true ->
  (forall card, In card (cards (ui w)) -> isMatched card = true) /\
  step w (ClickCard index) = w.
Proof.
  intros Hr Hc.
  assert (Hall : forall card, In card (cards (ui w)) -> isMatched card = true).
  { rewrite (inv_completion w (reachable_Inv w Hr)) in Hc.
    apply andb_true_iff in Hc. apply forallb_forall, Hc. }
  split; [exact Hall|].
  unfold step. cbv zeta.
  destruct (gameStarted (ui w)); [|reflexivity].
  destruct (nth_error (cards (ui w)) index) as [card|] eqn:Hnth; [|reflexivity].
  unfold GameCard_handleClick.
  rewrite (Hall card (nth_error_In _ _ Hnth)), andb_false_r. reflexivity.
Qed.

Lemma X16_complete_game_ignores_clicks_witness :
  let w := run initialWorld easyWalkthrough in
  reachable w /\
  isGameComplete (stats (ui w)) = true /\
  step w (ClickCard 7) = w.
Proof.
  assert (Hr : reachable (run initialWorld easyWalkthrough))
    by (apply reachable_run, reachable_initial).
  split; [exact Hr|]. split; [reflexivity|].
  exact (proj2 (X16_complete_game_ignores_clicks _ 7 Hr eq_refl)).
Defined.

(** X17: in every reachable world the one-second interval is registered
    exactly when the game screen is shown and the game is not complete: the
    timer effect, which runs only when one of its two dependencies changed,
    never leaves an interval behind and never misses one. *)
Theorem X17_interval_registered (w : World) :
  reachable w ->
  interval w = gameStarted (ui w) && negb (isGameComplete (stats (ui w))).
Proof.
  intro Hr. rewrite (inv_interval w (reachable_Inv w Hr)). unfold timerWanted.
  destruct (gameStarted (ui w)), (isGameComplete (stats (ui w))); reflexivity.
Qed.

Lemma X17_interval_registered_witness :
  let playing := run initialWorld [ClickStartGame swapFirstTwo; ClickCard 1] in
  let paused := step playing ClickChangeDifficulty in
  let complete := run initialWorld easyWalkthrough in
  reachable playing /\ interval playing = true /\
  reachable paused /\ interval paused = false /\
  reachable complete /\ interval complete = false.
Proof.
  assert (H1 : reachable (run initialWorld
                            [ClickStartGame swapFirstTwo; ClickCard 1]))
    by (apply reachable_run, reachable_initial).
  assert (H2 : reachable (step (run initialWorld
                                  [ClickStartGame swapFirstTwo; ClickCard 1])
                               ClickChangeDifficulty))
    by (apply reachable_step, H1).
  assert (H3 : reachable (run initialWorld easyWalkthrough))
    by (apply reachable_run, reachable_initial).
  split; [exact H1|]. split; [exact (X17_interval_registered _ H1)|].
  split; [exact H2|]. split; [exact (X17_interval_registered _ H2)|].
  split; [exact H3 | exact (X17_interval_registered _ H3)].
Defined.

(** X18: the difficulty cannot change under a running game.  While the game
    screen is shown no event changes the difficulty; on the start screen
    the selector changes the difficulty and nothing else, in particular it
    deals no deck. *)
Theorem X18_difficulty_fixed_in_game (w : World) :
  (gameStarted (ui w) = true ->
   forall e, difficulty (ui (step w e)) = difficulty (ui w)) /\
  (gameStarted (ui w) = false ->
   forall d, step w (SelectDifficulty d)
             = mkWorld (setDifficulty d (ui w)) (timeouts w) (interval w)).
Proof.
  split.
  - intros Hon e.
    destruct e as [shuffle | d | index | shuffle | | | k].
    + unfold step. cbv zeta. rewrite Hon. reflexivity.
    + unfold step. cbv zeta. rewrite Hon. reflexivity.
    + destruct (step_click_cards w index)
        as [-> | (cardId & s' & ts & -> & _ & _ & Hdiff)]; [reflexivity|].
      rewrite rerender_ui.
      destruct (completionEffect_frame s') as (_ & _ & -> & _). exact Hdiff.
    + unfold step. cbv zeta. rewrite Hon, rerender_ui.
      unfold resetGame. rewrite fresh_deck_not_complete. reflexivity.
    + unfold step. cbv zeta. rewrite Hon, rerender_ui. reflexivity.
    + unfold step. cbv zeta.
      destruct (interval w); [rewrite rerender_ui|]; reflexivity.
    + unfold step. cbv zeta.
      destruct (nth_error (timeouts w) k) as [t|]; [|reflexivity].
      rewrite rerender_ui.
      destruct (completionEffect_frame (runTimeout t (ui w)))
        as (_ & _ & -> & _).
      unfold runTimeout. destruct (kind t); reflexivity.
  - intros Hoff d. unfold step. cbv zeta. rewrite Hoff.
    unfold rerender, timerEffect, timerDeps.
    cbn [gameStarted stats setDifficulty]. rewrite !eqb_reflx. reflexivity.
Qed.

Lemma X18_difficulty_fixed_in_game_witness :
  let w := run initialWorld [SelectDifficulty medium; ClickStartGame swapFirstTwo] in
  gameStarted (ui w) = true /\
  difficulty (ui (step w (SelectDifficulty hard))) = medium /\
  difficulty (ui (step w (ClickResetGame (fun l => l)))) = medium /\
  difficulty (ui (step initialWorld (SelectDifficulty hard))) = hard.
Proof.
  split; [reflexivity|]. split; [|split].
  - exact (proj1 (X18_difficulty_fixed_in_game
                    (run initialWorld
                       [SelectDifficulty medium; ClickStartGame swapFirstTwo]))
             eq_refl (SelectDifficulty hard)).
  - exact (proj1 (X18_difficulty_fixed_in_game
                    (run initialWorld
                       [SelectDifficulty medium; ClickStartGame swapFirstTwo]))
             eq_refl (ClickResetGame (fun l => l))).
  - exact (f_equal (fun v => difficulty (ui v))
             (proj2 (X18_difficulty_fixed_in_game initialWorld) eq_refl hard)).
Defined.

(** X19: Reset Game in a reachable world replaces the session and keeps the
    difficulty: the deck is the one [initializeGame] deals for the current
    difficulty, nothing is selected, the grid is enabled, all counters are
    0 and the completion flag false, and the interval is registered, also
    when the game that was reset had been complete. *)
Theorem X19_reset_game
    (w : World) (shuffle : list string -> list string) :
  reachable w ->
  gameStarted (ui w) = true ->
  ui (step w (ClickResetGame shuffle))
  = mkState (shuffledCards CARD_EMOJIS shuffle (difficulty (ui w))) []
            (mkGameStats 0 0 0 false) (difficulty (ui w)) true true /\
  interval (step w (ClickResetGame shuffle)) = true.
Proof.
  intros Hr Hon.
  assert (E : ui (step w (ClickResetGame shuffle))
              = mkState (shuffledCards CARD_EMOJIS shuffle (difficulty (ui w))) []
                  (mkGameStats 0 0 0 false) (difficulty (ui w)) true true).
  { unfold step. cbv zeta. rewrite Hon, rerender_ui.
    unfold resetGame. rewrite fresh_deck_not_complete.
    unfold initializeGame, setIsClickable, setStats, setFlippedCards, setCards.
    cbn [cards flippedCards stats difficulty gameStarted isClickable].
    rewrite Hon. reflexivity. }
  split; [exact E|].
  rewrite (inv_interval _ (reachable_Inv _ (reachable_step w _ Hr))), E.
  reflexivity.
Qed.

Lemma X19_reset_game_witness :
  let w := run initialWorld easyWalkthrough in
  reachable w /\
  gameStarted (ui w) = true /\
  interval w = false /\
  interval (step w (ClickResetGame swapFirstTwo)) = true /\
  stats (ui (step w (ClickResetGame swapFirstTwo))) = mkGameStats 0 0 0 false.
Proof.
  assert (Hr : reachable (run initialWorld easyWalkthrough))
    by (apply reachable_run, reachable_initial).
  pose proof (X19_reset_game _ swapFirstTwo Hr eq_refl) as H.
  split; [exact Hr|]. split; [reflexivity|]. split; [reflexivity|].
  split; [exact (proj2 H)|].
  exact (f_equal stats (proj1 H)).
Defined.

(** ** The move counter, event by event *)

Lemma step_click_moves (w : World) (index : nat) :
  step w (ClickCard index) = w \/
  exists s' ts,
    step w (ClickCard index) = rerender w s' true ts /\
    moves (stats s')
    = (if length (flippedCards (ui w)) =? 1
       then moves (stats (ui w)) + 1 else moves (stats (ui w))).
Proof.
  unfold step. cbv zeta.
  destruct (gameStarted (ui w)); [|left; reflexivity].
  destruct (nth_error (cards (ui w)) index) as [card|]; [|left; reflexivity].
  unfold GameCard_handleClick.
  destruct (isClickable (ui w) && negb (isFlipped card) && negb (isMatched card));
    [|left; reflexivity].
  destruct (Nat.eq_dec (length (flippedCards (ui w))) 2) as [Htwo | Htwo].
  { rewrite handleCardClick_early by exact Htwo. left. reflexivity. }
  destruct (handleCardClick_shape (ui w) (id card) Htwo)
    as (s' & o & Hout & _ & _ & _ & _ & _ & _ & _ & Hmoves & _).
  right. exists s'.
  destruct Hout as [Hout | [Hout _]]; rewrite Hout;
    [destruct o as [t|]|]; eexists; split; try reflexivity; exact Hmoves.
Qed.

(** X20: apart from a deal, the only event that changes the move counter
    is a click on the grid made while exactly one card is selected, and it
    adds exactly 1; commits, ticks of the interval, rejected clicks and the
    other buttons leave it alone. *)
Theorem X20_moves_counter (w : World) (e : Event) :
  deals e = false ->
  moves (stats (ui (step w e))) = moves (stats (ui w)) \/
  (moves (stats (ui (step w e))) = moves (stats (ui w)) + 1 /\
   length (flippedCards (ui w)) = 1 /\
   exists index, e = ClickCard index).
Proof.
  intro He.
  destruct e as [shuffle | d | index | shuffle | | | k]; try discriminate.
  - left. unfold step. cbv zeta.
    destruct (gameStarted (ui w)); [|rewrite rerender_ui]; reflexivity.
  - destruct (step_click_moves w index) as [-> | (s' & ts & -> & Hmoves)];
      [left; reflexivity|].
    rewrite rerender_ui.
    destruct (completionEffect_frame s') as (_ & _ & _ & _ & _ & -> & _).
    rewrite Hmoves.
    destruct (length (flippedCards (ui w)) =? 1) eqn:Hone; [right | left; reflexivity].
    apply Nat.eqb_eq in Hone. split; [reflexivity|]. split; [exact Hone|].
    exists index. reflexivity.
  - left. unfold step. cbv zeta.
    destruct (gameStarted (ui w)); [rewrite rerender_ui|]; reflexivity.
  - left. unfold step. cbv zeta.
    destruct (interval w); [rewrite rerender_ui|]; reflexivity.
  - left. unfold step. cbv zeta.
    destruct (nth_error (timeouts w) k) as [t|]; [|reflexivity].
    rewrite rerender_ui.
    destruct (completionEffect_frame (runTimeout t (ui w)))
      as (_ & _ & _ & _ & _ & -> & _).
    apply runTimeout_stats.
Qed.

Lemma X20_moves_counter_witness :
  let w := run initialWorld [ClickStartGame swapFirstTwo; ClickCard 3; ClickCard 5] in
  deals (TimeoutFires 0) = false /\
  moves (stats (ui w)) = 1 /\
  (moves (stats (ui (step w (TimeoutFires 0)))) = moves (stats (ui w)) \/
   (moves (stats (ui (step w (TimeoutFires 0)))) = moves (stats (ui w)) + 1 /\
    length (flippedCards (ui w)) = 1 /\
    exists index, TimeoutFires 0 = ClickCard index)).
Proof.
  split; [reflexivity|]. split; [reflexivity|].
  exact (X20_moves_counter
           (run initialWorld [ClickStartGame swapFirstTwo; ClickCard 3; ClickCard 5])
           (TimeoutFires 0) eq_refl).
Defined.
